(** * pyearthviz: the tile acquisition and compositing engine

    A shallow embedding of [pyearthviz/map/base_tile_server.py] and
    [pyearthviz/map/raster_map_servers.py], and the properties of that code
    that its specification states.

    Conventions of the embedding.
    - Python [int] is [Z]; Python [str] is [string]; [None]-able values are
      [option]s and Python truthiness is written out ([truthy]).
    - A Python function that can raise returns a [result]; the exception
      constructors are the exception classes the code can raise.
    - [warnings.warn] is a writer effect: a function that may warn returns
      the list of warnings it issued next to its value.
    - The network and the image decoder are the environment: a [Network]
      maps a URL to what [requests.get] does there.
    - Python [float] arithmetic in the Web-Mercator formulas is read over
      the real numbers; rounding of binary64 is not modelled there. *)

From Stdlib Require Import ZArith List String Ascii DecimalString Bool Lia.
From Stdlib Require Import Reals Lra.
Import ListNotations.

Local Open Scope string_scope.
Local Open Scope Z_scope.

(** ** Python values and effects *)

Module Py.

(** The exception classes raised by the code or by the library calls it
    makes. *)
Inductive exn : Type :=
| ValueError (msg : string)
| KeyError (key : string)
| IndexError
| ZeroDivisionError
| Exception (msg : string)
| ConnectionError
| UnidentifiedImageError
| AttributeError (msg : string)
| OverflowError.

Inductive result (A : Type) : Type :=
| Ok (a : A)
| Raise (e : exn).
Arguments Ok {A} a.
Arguments Raise {A} e.

Definition bind {A B : Type} (m : result A) (k : A -> result B) : result B :=
  match m with
  | Ok a => k a
  | Raise e => Raise e
  end.

(** [try: m except Exception: h]. *)
Definition try_except {A : Type} (m : result A) (h : A) : A :=
  match m with
  | Ok a => a
  | Raise _ => h
  end.

Definition is_ok {A : Type} (m : result A) : bool :=
  match m with
  | Ok _ => true
  | Raise _ => false
  end.

Inductive warning : Type :=
| UserWarning (msg : string).

(** [str(n)] for an [int]. *)
Definition str (n : Z) : string := NilZero.string_of_int (Z.to_int n).

(** Truthiness of an [Optional[str]]: [None] and [''] are falsy. *)
Definition truthy (s : option string) : bool :=
  match s with
  | None => false
  | Some s => negb (String.eqb s "")
  end.

(** [s or ''] for an [Optional[str]]. *)
Definition or_empty (s : option string) : string :=
  match s with
  | Some s => if String.eqb s "" then "" else s
  | None => ""
  end.

(** [d.get(key, default)] for an optional entry. *)
Definition get {A : Type} (entry : option A) (default : A) : A :=
  match entry with
  | Some a => a
  | None => default
  end.

(** [sub in s]. *)
Definition contains (sub s : string) : bool :=
  match index 0 sub s with
  | Some _ => true
  | None => false
  end.

(** [range(lo, hi)]. *)
Definition range (lo hi : Z) : list Z :=
  map (fun i => lo + Z.of_nat i) (seq 0 (Z.to_nat (hi - lo))).

(** [template.format] with keyword arguments [kw], for templates whose replacement fields are
    plain names: text outside braces is copied, [{name}] is replaced by
    the keyword argument [name], and a name that is not supplied raises
    [KeyError]. *)
Fixpoint lookup (kw : list (string * string)) (name : string) : option string :=
  match kw with
  | [] => None
  | (k, v) :: kw => if String.eqb k name then Some v else lookup kw name
  end.

Fixpoint format_from (field : option string) (template : string)
         (kw : list (string * string)) : result string :=
  match template with
  | EmptyString =>
      match field with
      | None => Ok ""
      | Some _ => Raise (ValueError "expected '}' before end of string")
      end
  | String c rest =>
      match field with
      | None =>
          if Ascii.eqb c "{" then format_from (Some "") rest kw
          else bind (format_from None rest kw) (fun s => Ok (String c s))
      | Some name =>
          if Ascii.eqb c "}" then
            match lookup kw name with
            | Some v => bind (format_from None rest kw) (fun s => Ok (v ++ s))
            | None => Raise (KeyError name)
            end
          else format_from (Some (name ++ String c "")) rest kw
      end
  end.

Definition format (template : string) (kw : list (string * string)) : result string :=
  format_from None template kw.

End Py.

Import Py.

Declare Scope py_scope.
Delimit Scope py_scope with py.
Notation "x <- m ;; k" := (bind m (fun x => k))
  (at level 61, m at next level, right associativity) : py_scope.
Notation "' pat <- m ;; k" := (bind m (fun x => match x with pat => k end))
  (at level 61, pat pattern, m at next level, right associativity) : py_scope.
Local Open Scope py_scope.

(** ** Provider registry *)

(** One entry of [_PROVIDERS]. The keys read with [.get(key, default)] are
    optional; the others are present in every entry. *)
Record Config : Type := mkConfig {
  url_template : string;
  tile_size : Z;
  requires_api_key : bool;
  special_handling : option string;
  min_zoom : option Z;
  max_zoom : option Z;
  api_env : option string
}.

Definition provider_entry (url : string) (size : Z) (key : bool)
           (handling : option string) (lo hi : Z) : Config :=
  mkConfig url size key handling (Some lo) (Some hi) None.

Definition esri (service : string) : string :=
  "https://server.arcgisonline.com/ArcGIS/rest/services/" ++ service ++ "/MapServer/tile/{z}/{y}/{x}".

(** [RasterTileServer._PROVIDERS], in the order of the source. *)
Definition _PROVIDERS : list (string * Config) :=
  [ ("Stadia.StamenTerrain",
     provider_entry "https://tiles.stadiamaps.com/tiles/stamen_terrain/{z}/{x}/{y}@2x.png?api_key={api_key}"
                    512 true None 0 18);
    ("Stadia.AlidadeSmooth",
     provider_entry "https://tiles.stadiamaps.com/tiles/alidade_smooth/{z}/{x}/{y}@2x.png?api_key={api_key}"
                    512 true None 0 20);
    ("Esri.Terrain", provider_entry (esri "World_Terrain_Base") 256 false None 0 13);
    ("Esri.Relief",
     provider_entry "https://server.arcgisonline.com/ArcGIS/rest/services/World_Shaded_Relief/MapServer/tile/{z}/{y}/{x}.jpg"
                    256 false None 0 13);
    ("Esri.Hydro",
     provider_entry "https://tiles.arcgis.com/tiles/P3ePLMYs2RVChkJx/arcgis/rest/services/Esri_Hydro_Reference_Overlay/MapServer/tile/{z}/{y}/{x}"
                    256 false (Some "make_black_transparent") 0 19);
    ("Esri.WorldImagery", provider_entry (esri "World_Imagery") 256 false None 0 19);
    ("Esri.WorldTopo", provider_entry (esri "World_Topo_Map") 256 false None 0 19);
    ("Esri.NatGeo", provider_entry (esri "NatGeo_World_Map") 256 false None 0 16);
    ("Esri.WorldStreet", provider_entry (esri "World_Street_Map") 256 false None 0 19);
    ("Esri.GrayCanvasBase", provider_entry (esri "Canvas/World_Gray_Canvas") 256 false None 0 16);
    ("Esri.GrayCanvasLabels",
     provider_entry (esri "Canvas/World_Gray_Canvas_Reference") 256 false None 0 16);
    ("Esri.WorldOceanBase", provider_entry (esri "Ocean/World_Ocean_Base") 256 false None 0 10);
    ("Carto.Positron",
     provider_entry "https://a.basemaps.cartocdn.com/light_all/{z}/{x}/{y}@2x.png" 512 false None 0 20);
    ("Carto.DarkMatter",
     provider_entry "https://a.basemaps.cartocdn.com/dark_all/{z}/{x}/{y}@2x.png" 512 false None 0 20);
    ("OSM.Standard",
     provider_entry "https://tile.openstreetmap.org/{z}/{x}/{y}.png" 256 false None 0 19) ].

Fixpoint providers_get (registry : list (string * Config)) (provider : string) : option Config :=
  match registry with
  | [] => None
  | (name, cfg) :: registry =>
      if String.eqb name provider then Some cfg else providers_get registry provider
  end.

(** ** BaseTileServer *)

(** The attributes [__init__] sets on a client; [self.tile_size] is the
    [tile_size] of [_config]. *)
Record Server : Type := mkServer {
  provider : string;
  _config : Config;
  api_key : option string
}.

(** [os.environ]. *)
Definition Environ : Type := list (string * string).

Definition join_keys (registry : list (string * Config)) : string :=
  String.concat ", " (map fst registry).

(** [BaseTileServer.__init__], for a class whose registry is [registry]. *)
Definition __init__ (registry : list (string * Config)) (environ : Environ)
           (provider : string) (api_key : option string)
  : result (Server * list warning) :=
  match providers_get registry provider with
  | None =>
      Raise (ValueError ("Unknown provider '" ++ provider ++ "'. Available providers: "
                           ++ join_keys registry))
  | Some cfg =>
      if requires_api_key cfg then
        if truthy api_key then Ok (mkServer provider cfg api_key, [])
        else
          let env_key :=
            if truthy (api_env cfg) then api_env cfg
            else if contains "Stadia" provider then Some "STADIA_API_KEY" else None in
          if truthy env_key then
            let found := lookup environ (or_empty env_key) in
            if truthy found then Ok (mkServer provider cfg found, [])
            else
              Ok (mkServer provider cfg found,
                  [UserWarning ("Provider '" ++ provider
                                  ++ "' requires an API key. Provide it via api_key parameter or "
                                  ++ or_empty env_key ++ " environment variable.")])
          else Ok (mkServer provider cfg None, [])
      else Ok (mkServer provider cfg api_key, [])
  end.

Definition get_url_template (self : Server) : string := url_template (_config self).

(** [BaseTileServer._build_tile_url]. *)
Definition _build_tile_url (self : Server) (z x y : Z) : result string :=
  format (get_url_template self)
         [("z", str z); ("x", str x); ("y", str y); ("api_key", or_empty (api_key self))].

(** ** Zoom and supersample validation *)

Definition zoom_floor (self : Server) : Z := get (min_zoom (_config self)) 0.
Definition zoom_ceiling (self : Server) : Z := get (max_zoom (_config self)) 18.

Definition unsupported_zoom (self : Server) (zoom_level : Z) (which : string) (bound : Z) : string :=
  provider self ++ " does not support zoom level " ++ str zoom_level ++ ". "
    ++ which ++ " supported zoom is " ++ str bound ++ ".".

Definition supersample_reduced (self : Server) (max_zoom zoom_level original fetch_zoom supersample : Z)
  : string :=
  provider self ++ " maximum zoom level is " ++ str max_zoom ++ ". Requested zoom "
    ++ str zoom_level ++ " with supersample=" ++ str original ++ " would require zoom "
    ++ str fetch_zoom ++ ". Automatically reducing supersample to " ++ str supersample ++ ".".

(** [RasterTileServer._validate_zoom_level]: returns
    [(fetch_zoom, adjusted_supersample)] and the warnings issued. *)
Definition _validate_zoom_level (self : Server) (zoom_level supersample : Z)
  : result ((Z * Z) * list warning) :=
  let fetch_zoom := zoom_level + supersample in
  let min_zoom := zoom_floor self in
  let max_zoom := zoom_ceiling self in
  if zoom_level <? min_zoom then
    Raise (ValueError (unsupported_zoom self zoom_level "Minimum" min_zoom))
  else if zoom_level >? max_zoom then
    Raise (ValueError (unsupported_zoom self zoom_level "Maximum" max_zoom))
  else if fetch_zoom >? max_zoom then
    let original_supersample := supersample in
    let supersample := Z.max 0 (max_zoom - zoom_level) in
    let notice :=
      UserWarning (supersample_reduced self max_zoom zoom_level original_supersample
                                       fetch_zoom supersample) in
    let fetch_zoom := zoom_level + supersample in
    Ok ((fetch_zoom, supersample), [notice])
  else Ok ((fetch_zoom, supersample), []).

(** ** Images (the part of PIL the engine uses)

    A decoded image is a size and a flat, row-major sequence of pixels in
    one of the modes [L], [RGB] or [RGBA], as [Image.getdata] presents it.
    [Image.resize] resamples with floating-point kernels; what a returning
    call [src.resize(size, resample=f)] yields is kept as the constructor
    [Resized src size f], which records the requested size and filter, so
    a [Picture] is a raster or a resampling of a picture. *)

Definition RGBA : Type := (Z * Z * Z * Z)%type.

Inductive Bands : Type :=
| BandsL (data : list Z)
| BandsRGB (data : list (Z * Z * Z))
| BandsRGBA (data : list RGBA).

Record Image : Type := mkImage {
  width : Z;
  height : Z;
  bands : Bands
}.

Definition mode (img : Image) : string :=
  match bands img with
  | BandsL _ => "L"
  | BandsRGB _ => "RGB"
  | BandsRGBA _ => "RGBA"
  end.

Definition transparent : RGBA := (0, 0, 0, 0).

(** [Image.new('RGBA', size, color)]; the default colour is [0]. *)
Definition Image_new (size : Z * Z) (color : RGBA) : result Image :=
  let '(w, h) := size in
  if (w <? 0) || (h <? 0) then Raise (ValueError "Width and height must be >= 0")
  else Ok (mkImage w h (BandsRGBA (repeat color (Z.to_nat (w * h))))).

(** The pixels of [img.convert('RGBA')]: grey levels are replicated and an
    image without alpha becomes opaque. *)
Definition rgba_data (img : Image) : list RGBA :=
  match bands img with
  | BandsL data => map (fun v => (v, v, v, 255)) data
  | BandsRGB data => map (fun '(r, g, b) => (r, g, b, 255)) data
  | BandsRGBA data => data
  end.

Definition convert_RGBA (img : Image) : Image :=
  mkImage (width img) (height img) (BandsRGBA (rgba_data img)).

(** [img.getdata()] of an RGBA image. *)
Definition getdata (img : Image) : list RGBA := rgba_data img.

(** [img.putdata(data)] on an RGBA image. *)
Definition putdata (img : Image) (data : list RGBA) : Image :=
  mkImage (width img) (height img) (BandsRGBA data).

(** [img.getpixel((x, y))], read in RGBA; [None] outside the image. *)
Definition getpixel (img : Image) (x y : Z) : option RGBA :=
  if (0 <=? x) && (x <? width img) && (0 <=? y) && (y <? height img)
  then nth_error (rgba_data img) (Z.to_nat (y * width img + x))
  else None.

Fixpoint mapi_from {A B : Type} (f : nat -> A -> B) (i : nat) (l : list A) : list B :=
  match l with
  | [] => []
  | a :: l => f i a :: mapi_from f (S i) l
  end.

(** [canvas.paste(im, box)] for an RGBA canvas, a two-coordinate box and no
    mask: the pixels of [im], converted to the mode of the canvas, replace
    those of the canvas where [im] lies over it. *)
Definition paste (canvas im : Image) (box : Z * Z) : Image :=
  let '(x0, y0) := box in
  let w := width canvas in
  putdata canvas
    (mapi_from
       (fun i old =>
          match getpixel im (Z.of_nat i mod w - x0) (Z.of_nat i / w - y0) with
          | Some p => p
          | None => old
          end)
       0 (rgba_data canvas)).

Inductive Filter : Type := NEAREST | BILINEAR | BICUBIC | LANCZOS.

Inductive Picture : Type :=
| Raster (img : Image)
| Resized (src : Picture) (size : Z * Z) (resample : Filter).

(** [img.size]. *)
Definition size (p : Picture) : Z * Z :=
  match p with
  | Raster img => (width img, height img)
  | Resized _ size _ => size
  end.

(** [img.resize(size, resample=...)]: Pillow returns a copy when the
    requested size is the size of the image, and otherwise raises
    [ValueError] for a requested width or height below 1. *)
Definition resize (p : Picture) (target : Z * Z) (resample : Filter) : result Picture :=
  let '(w, h) := target in
  if (fst (size p) =? w) && (snd (size p) =? h) then Ok (Resized p target resample)
  else if (w <? 1) || (h <? 1) then Raise (ValueError "height and width must be > 0")
  else Ok (Resized p target resample).

(** ** Sequences and loops *)

(** [l[i]] for a non-negative index. *)
Definition getitem {A : Type} (l : list A) (i : Z) : result A :=
  match nth_error l (Z.to_nat i) with
  | Some a => Ok a
  | None => Raise IndexError
  end.

(** [for x in xs: state = body(x, state)], stopping at the first exception. *)
Fixpoint for_each {A S : Type} (xs : list A) (body : A -> S -> result S) (s : S) : result S :=
  match xs with
  | [] => Ok s
  | x :: xs => s' <- body x s ;; for_each xs body s'
  end.

(** [out = []; for x in xs: out.append(f(x))], stopping at the first
    exception. *)
Fixpoint collect {A B : Type} (f : A -> result B) (xs : list A) : result (list B) :=
  match xs with
  | [] => Ok []
  | x :: xs => b <- f x ;; bs <- collect f xs ;; Ok (b :: bs)
  end.

(** ** The network *)

(** The body of an HTTP response: the bytes of an image, or bytes that
    [Image.open] cannot identify. *)
Inductive Payload : Type :=
| Encoded (img : Image)
| Garbage.

Record Response : Type := mkResponse {
  status_code : Z;
  content : Payload
}.

(** What [requests.get(url)] does: it returns a response or raises. *)
Definition Network : Type := string -> result Response.

(** [Image.open(BytesIO(content))]. *)
Definition Image_open (c : Payload) : result Image :=
  match c with
  | Encoded img => Ok img
  | Garbage => Raise UnidentifiedImageError
  end.

(** ** RasterTileServer: instance methods *)

(** The loop body of [_apply_special_handling]. *)
Definition black_to_transparent (item : RGBA) : RGBA :=
  let '(r, g, b, a) := item in
  if (r =? 0) && (g =? 0) && (b =? 0) then (0, 0, 0, 0) else item.

(** [RasterTileServer._apply_special_handling]. *)
Definition _apply_special_handling (self : Server) (img : Image) : Image :=
  let handling := special_handling (_config self) in
  match handling with
  | Some h =>
      if String.eqb h "make_black_transparent" then
        let img := convert_RGBA img in
        let datas := getdata img in
        let new_data := map black_to_transparent datas in
        putdata img new_data
      else img
  | None => img
  end.

Definition fetch_failed (self : Server) (status : Z) (url : string) : string :=
  "Failed to fetch tile from " ++ provider self ++ ": HTTP " ++ str status ++ " - " ++ url.

(** [RasterTileServer.fetch_tile]. *)
Definition fetch_tile (net : Network) (self : Server) (z x y : Z) : result Image :=
  url <- _build_tile_url self z x y ;;
  response <- net url ;;
  if status_code response =? 200 then
    img <- Image_open (content response) ;;
    if truthy (special_handling (_config self)) then Ok (_apply_special_handling self img)
    else Ok img
  else Raise (Exception (fetch_failed self (status_code response) url)).

(** ** RasterTileServer: static and class methods *)

(** [RasterTileServer.combine_tiles]. *)
Definition combine_tiles (tiles : list (list Image)) (tile_size : Z) : result Image :=
  let rows := Z.of_nat (List.length tiles) in
  let cols := if rows >? 0 then Z.of_nat (List.length (nth 0 tiles [])) else 0 in
  if (rows =? 0) || (cols =? 0) then Image_new (tile_size, tile_size) transparent
  else
    combined_img <- Image_new (cols * tile_size, rows * tile_size) transparent ;;
    for_each (range 0 rows)
      (fun row combined_img =>
         for_each (range 0 cols)
           (fun col combined_img =>
              tiles_row <- getitem tiles row ;;
              tile <- getitem tiles_row col ;;
              Ok (paste combined_img tile (col * tile_size, row * tile_size)))
           combined_img)
      combined_img.

(** [str.lower], on ASCII letters. *)
Definition lower_char (c : ascii) : ascii :=
  let n := nat_of_ascii c in
  if (65 <=? n)%nat && (n <=? 90)%nat then ascii_of_nat (n + 32) else c.

Fixpoint lower (s : string) : string :=
  match s with
  | EmptyString => EmptyString
  | String c s => String (lower_char c) (lower s)
  end.

Definition filters : list (string * Filter) :=
  [("lanczos", LANCZOS); ("bicubic", BICUBIC); ("bilinear", BILINEAR); ("nearest", NEAREST)].

Fixpoint filters_get (d : list (string * Filter)) (key : string) (default : Filter) : Filter :=
  match d with
  | [] => default
  | (k, v) :: d => if String.eqb k key then v else filters_get d key default
  end.

(** [RasterTileServer._get_resample_filter]. *)
Definition _get_resample_filter (method : string) : Filter :=
  filters_get filters (lower method) LANCZOS.

(** ** Tile coordinate math

    Python floats are read as real numbers here: [+], [-], [*], [/],
    [math.log], [math.tan], [math.cos] and [math.pi] are the exact
    operations, [2.0 ** zoom] is the exact power and [int] truncates toward
    zero.  What the exact operations keep of the Python ones is where they
    raise: [math.log] outside its domain, division by zero and the
    overflow of [2.0 ** zoom] from [zoom = 1024] on.

    This reading is an idealisation of binary64: it does not round.  A
    statement about these functions carries over to the code only where
    rounding cannot change it; where an index depends on the last bits of
    an intermediate result (a longitude within rounding distance of a
    column edge, two latitudes closer than the error of [math.tan] and
    [math.log], a latitude of exactly 90 degrees, whose cosine is not zero
    in binary64), it does not, and nothing is stated here about those
    cases. *)

(** [int(v)] for a float [v]. *)
Definition int (v : R) : Z :=
  if Rle_dec 0 v then Int_part v else - Int_part (- v).

Definition math_radians (deg : R) : R := (deg * (PI / 180))%R.

Definition math_log (v : R) : result R :=
  if Rlt_dec 0 v then Ok (ln v) else Raise (ValueError "math domain error").

(** [a / b] on floats. *)
Definition truediv (a b : R) : result R :=
  if Req_dec_T b 0 then Raise ZeroDivisionError else Ok (a / b)%R.

(** [2.0 ** zoom] for an [int] exponent: the largest binary64 power of two
    is [2.0 ** 1023]. *)
Definition float_pow_2 (zoom : Z) : result R :=
  if 1024 <=? zoom then Raise OverflowError else Ok (powerRZ 2 zoom).

(** [RasterTileServer.lonlat_to_tile]. *)
Definition lonlat_to_tile (lon lat : R) (zoom : Z) : result (Z * Z) :=
  let lat_rad := math_radians lat in
  n <- float_pow_2 zoom ;;
  let x_tile := int ((lon + 180) / 360 * n)%R in
  sec <- truediv 1 (cos lat_rad) ;;
  merc <- math_log (tan lat_rad + sec)%R ;;
  let y_tile := int ((1 - merc / PI) / 2 * n)%R in
  Ok (x_tile, y_tile).

(** An extent [minx, maxx, miny, maxy] in degrees. *)
Definition Extent : Type := (R * R * R * R)%type.

(** [RasterTileServer.extent_to_tile_indices]. *)
Definition extent_to_tile_indices (extent : Extent) (zoom : Z) : result (Z * Z * Z * Z) :=
  let '(minx, maxx, miny, maxy) := extent in
  '(x_min, y_max) <- lonlat_to_tile minx miny zoom ;;
  '(x_max, y_min) <- lonlat_to_tile maxx maxy zoom ;;
  Ok (x_min, y_min, x_max, y_max).

(** ** Fetching an extent *)

(** [int(v * 1.02)] for a pixel count [v]. *)
Definition scaled_102 (v : Z) : Z := Z.quot (v * 102) 100.

(** [RasterTileServer.fetch_tiles_for_extent]; the result is the picture
    that [np.array] turns into the returned array. *)
Definition fetch_tiles_for_extent (net : Network) (self : Server) (extent : Extent)
           (zoom_level supersample : Z) (resample : bool) (resample_method : string)
  : result (Picture * list warning) :=
  '((fetch_zoom, supersample), notices) <- _validate_zoom_level self zoom_level supersample ;;
  '(x_min, y_min, x_max, y_max) <- extent_to_tile_indices extent fetch_zoom ;;
  tiles <- collect
             (fun y => collect (fun x => fetch_tile net self fetch_zoom x y)
                               (range x_min (x_max + 1)))
             (range y_min (y_max + 1)) ;;
  let actual_tile_size :=
    match tiles with
    | (tile :: _) :: _ => width tile
    | _ => tile_size (_config self)
    end in
  combined_img <- combine_tiles tiles actual_tile_size ;;
  let combined_img := Raster combined_img in
  combined_img <-
    (if supersample >? 0 then
       '(original_x_min, original_y_min, original_x_max, original_y_max) <-
         extent_to_tile_indices extent zoom_level ;;
       let target_width := (original_x_max - original_x_min + 1) * tile_size (_config self) in
       let target_height := (original_y_max - original_y_min + 1) * tile_size (_config self) in
       let resample_filter := _get_resample_filter "lanczos" in
       resize combined_img (target_width, target_height) resample_filter
     else Ok combined_img) ;;
  combined_img <-
    (if resample && (supersample =? 0) then
       let current_size := size combined_img in
       let resample_filter := _get_resample_filter resample_method in
       let temp_size := (scaled_102 (fst current_size), scaled_102 (snd current_size)) in
       combined_img <- resize combined_img temp_size BICUBIC ;;
       resize combined_img current_size resample_filter
     else Ok combined_img) ;;
  Ok (combined_img, notices).

(** ** The cartopy tile source *)

(** A tile of the renderer: [(x, y, z)]. *)
Definition Tile : Type := (Z * Z * Z)%type.

(** What [get_image] returns: the image, its extent and its origin. *)
Definition TileImage : Type := (Picture * Extent * string)%type.

(** The object [get_cartopy_source] returns: the variables its methods
    close over. *)
Record UnifiedTileSource : Type := mkSource {
  parent_instance : Server;
  supersample_level : Z;
  resample_filter : Filter
}.

(** [RasterTileServer.get_cartopy_source]. *)
Definition get_cartopy_source (self : Server) (supersample : Z) (resample_method : string)
  : UnifiedTileSource :=
  mkSource self supersample (_get_resample_filter resample_method).

(** [UnifiedTileSource._image_url]. *)
Definition _image_url (source : UnifiedTileSource) (tile : Tile) : result string :=
  let '(x, y, z) := tile in
  let supersample := supersample_level source in
  let config := _config (parent_instance source) in
  let fetch_z := if supersample >? 0 then z + supersample else z in
  let max_zoom := get (max_zoom config) 18 in
  let fetch_z := if fetch_z >? max_zoom then max_zoom else fetch_z in
  let scale := 2 ^ Z.max 0 (fetch_z - z) in
  let fetch_x := x * scale in
  let fetch_y := y * scale in
  format (url_template config)
         [("z", str fetch_z); ("x", str fetch_x); ("y", str fetch_y);
          ("api_key", or_empty (api_key (parent_instance source)))].

Section TileSource.

(** [cimgt.GoogleTiles.get_image], the method of the cartopy base class
    that [super().get_image(tile)] calls. *)
Variable GoogleTiles_get_image : UnifiedTileSource -> Tile -> result (Image * Extent * string).

Variable net : Network.

(** The branch of [get_image] that defers to the base class. *)
Definition get_image_from_parent (source : UnifiedTileSource) (tile : Tile) : result TileImage :=
  '(img, extent, origin) <- GoogleTiles_get_image source tile ;;
  let parent := parent_instance source in
  let img := if truthy (special_handling (_config parent))
             then _apply_special_handling parent img else img in
  Ok (Raster img, extent, origin).

(** One iteration of the inner loop of [get_image]: the sub-tile, or a
    blank tile when fetching it raises. *)
Definition fetch_or_blank (parent : Server) (fetch_z fetch_x fetch_y : Z) : result Image :=
  match (high_res_tile <- fetch_tile net parent fetch_z fetch_x fetch_y ;;
         Ok (if negb (String.eqb (mode high_res_tile) "RGBA")
             then convert_RGBA high_res_tile else high_res_tile)) with
  | Ok high_res_tile => Ok high_res_tile
  | Raise _ =>
      Image_new (tile_size (_config parent), tile_size (_config parent)) (0, 0, 0, 0)
  end.

(** The last [try] of [get_image]: the extent and origin that the base
    class gives for the tile.  The handler looks
    [_calculate_tile_extent_web_mercator] up on [BaseTileServer]; only
    [RasterTileServer] defines it, so the handler raises [AttributeError]. *)
Definition extent_from_parent (source : UnifiedTileSource) (tile : Tile)
  : result (Extent * string) :=
  match GoogleTiles_get_image source tile with
  | Ok (_, extent, origin) => Ok (extent, origin)
  | Raise _ =>
      Raise (AttributeError
               "type object 'BaseTileServer' has no attribute '_calculate_tile_extent_web_mercator'")
  end.

(** [UnifiedTileSource.get_image]. *)
Definition get_image (source : UnifiedTileSource) (tile : Tile) : result TileImage :=
  let '(x, y, z) := tile in
  let supersample := supersample_level source in
  let parent := parent_instance source in
  let config := _config parent in
  if supersample <=? 0 then get_image_from_parent source tile
  else
    let fetch_z := z + supersample in
    let max_zoom := get (max_zoom config) 18 in
    let actual_supersample := if fetch_z >? max_zoom then max_zoom - z else supersample in
    let fetch_z := if fetch_z >? max_zoom then max_zoom else fetch_z in
    if actual_supersample <=? 0 then get_image_from_parent source tile
    else
      let scale := 2 ^ actual_supersample in
      tiles <- collect
                 (fun dy =>
                    collect
                      (fun dx =>
                         let fetch_x := x * scale + dx in
                         let fetch_y := y * scale + dy in
                         fetch_or_blank parent fetch_z fetch_x fetch_y)
                      (range 0 scale))
                 (range 0 scale) ;;
      combined_img <-
        match tiles with
        | (tile00 :: _) :: _ =>
            let actual_tile_size := width tile00 in
            combine_tiles tiles actual_tile_size
        | _ => Image_new (tile_size config, tile_size config) (0, 0, 0, 0)
        end ;;
      let target_size := tile_size config in
      combined_img <-
        resize (Raster combined_img) (target_size, target_size) (resample_filter source) ;;
      '(extent, origin) <- extent_from_parent source tile ;;
      Ok (combined_img, extent, origin).

End TileSource.

(** ** Clients used in the examples *)

Definition esri_terrain : Server :=
  mkServer "Esri.Terrain" (provider_entry (esri "World_Terrain_Base") 256 false None 0 13) None.

Definition stadia_without_key : Server :=
  mkServer "Stadia.StamenTerrain"
           (provider_entry "https://tiles.stadiamaps.com/tiles/stamen_terrain/{z}/{x}/{y}@2x.png?api_key={api_key}"
                           512 true None 0 18)
           None.

Definition esri_hydro : Server :=
  mkServer "Esri.Hydro"
           (provider_entry "https://tiles.arcgis.com/tiles/P3ePLMYs2RVChkJx/arcgis/rest/services/Esri_Hydro_Reference_Overlay/MapServer/tile/{z}/{y}/{x}"
                           256 false (Some "make_black_transparent") 0 19)
           None.

(** A 1x1 opaque red tile, and a network on which every request is
    answered with status 200 and that tile. *)
Definition red_pixel : Image := mkImage 1 1 (BandsRGBA [(255, 0, 0, 255)]).

Definition answering_200 (img : Image) : Network :=
  fun _ => Ok (mkResponse 200 (Encoded img)).

(** An opaque red tile of a given edge, and a network on which the
    sub-tile [(z, x, y) = (1, 1, 1)] of Esri.Terrain is missing while every
    other request is answered with a red 256-pixel tile. *)
Definition red_tile (edge : Z) : Image :=
  mkImage edge edge (BandsRGBA (repeat (255, 0, 0, 255) (Z.to_nat (edge * edge)))).

Definition one_sub_tile_missing : Network :=
  fun url =>
    if String.eqb url "https://server.arcgisonline.com/ArcGIS/rest/services/World_Terrain_Base/MapServer/tile/1/1/1"
    then Ok (mkResponse 404 Garbage)
    else Ok (mkResponse 200 (Encoded (red_tile 256))).

(** The Web-Mercator square of the whole world, in metres: the extent of
    tile [(0, 0, 0)]. *)
Definition whole_world : Extent :=
  (-20037508342789244 / 1000000000, 20037508342789244 / 1000000000,
   -20037508342789244 / 1000000000, 20037508342789244 / 1000000000)%R.

(** A stand-in for the base class's [get_image] on a network, in the
    manner of cartopy: it requests the URL that [_image_url] gives for the
    tile, fails when the request fails or is not answered with status 200,
    and otherwise answers with the decoded image, an extent (here always
    that of tile [(0, 0, 0)]) and the origin ['lower']. *)
Definition answering_parent (net : Network)
  : UnifiedTileSource -> Tile -> result (Image * Extent * string) :=
  fun source tile =>
    url <- _image_url source tile ;;
    response <- net url ;;
    if status_code response =? 200 then
      img <- Image_open (content response) ;;
      Ok (img, whole_world, "lower")
    else Raise (Exception "HTTP Error").

(** ** BaseTileServer: introspection *)

(** [BaseTileServer.get_available_providers]. *)
Definition get_available_providers (registry : list (string * Config)) : list string :=
  map fst registry.

(** What [get_provider_info] returns: one configuration, or all of them. *)
Inductive ProviderInfo : Type :=
| OneProvider (cfg : Config)
| AllProviders (configs : list (string * Config)).

(** [BaseTileServer.get_provider_info]. *)
Definition get_provider_info (registry : list (string * Config)) (provider : option string)
  : result ProviderInfo :=
  if truthy provider then
    match providers_get registry (or_empty provider) with
    | None => Raise (ValueError ("Unknown provider '" ++ or_empty provider ++ "'"))
    | Some cfg => Ok (OneProvider cfg)
    end
  else Ok (AllProviders registry).

(** ** Zoom suggestion *)

Definition quality_adjustments : list (string * Z) :=
  [("fast", -1); ("balanced", 0); ("quality", 2)].

Fixpoint adjustments_get (d : list (string * Z)) (key : string) (default : Z) : Z :=
  match d with
  | [] => default
  | (k, v) :: d => if String.eqb k key then v else adjustments_get d key default
  end.

(** [RasterTileServer.suggest_optimal_zoom], from the base zoom on:
    [base_zoom] is the integer that [calculate_zoom_level] returns for the
    scale denominator of the extent (a computation on floats through
    [osr], which is not modelled). *)
Definition suggest_optimal_zoom (self : Server) (base_zoom : Z) (quality_preference : string)
  : Z :=
  let adjustment := adjustments_get quality_adjustments (lower quality_preference) 0 in
  let adjustment :=
    if tile_size (_config self) >=? 512 then adjustment + 1 else adjustment in
  let suggested_zoom := base_zoom + adjustment in
  let min_zoom := get (min_zoom (_config self)) 0 in
  let max_zoom := get (max_zoom (_config self)) 18 in
  let suggested_zoom := Z.max min_zoom (Z.min max_zoom suggested_zoom) in
  suggested_zoom.

(** A network that cannot be reached. *)
Definition offline : Network := fun _ => Raise ConnectionError.

(** ** Vocabulary of the properties *)

(** An image whose data has one pixel per position. *)
Definition well_formed (img : Image) : Prop :=
  0 <= width img /\ 0 <= height img
  /\ List.length (rgba_data img) = Z.to_nat (width img * height img).

(** A well-formed square tile of edge [edge]. *)
Definition tile_ok (edge : Z) (img : Image) : Prop :=
  width img = edge /\ height img = edge /\ well_formed img.

(** [tiles[row][col]], when both indices are in range. *)
Definition tile_at (tiles : list (list Image)) (row col : Z) : option Image :=
  match nth_error tiles (Z.to_nat row) with
  | Some tiles_row => nth_error tiles_row (Z.to_nat col)
  | None => None
  end.

(** The pixel that the tile covering [(x, y)] has there. *)
Definition tile_pixel (tiles : list (list Image)) (edge x y : Z) : option RGBA :=
  match tile_at tiles (y / edge) (x / edge) with
  | Some tile => getpixel tile (x mod edge) (y mod edge)
  | None => None
  end.

(** A grid with [cols] tiles in every row. *)
Definition rectangular (tiles : list (list Image)) (cols : Z) : Prop :=
  Forall (fun tiles_row => Z.of_nat (List.length tiles_row) = cols) tiles.

(** The state of the canvas while the grid is pasted: the tiles for which
    [done row col] holds are in place, the rest of the canvas is blank. *)
Definition composed (tiles : list (list Image)) (edge : Z) (done : Z -> Z -> bool)
           (w h : Z) (canvas : Image) : Prop :=
  well_formed canvas /\ width canvas = w /\ height canvas = h
  /\ forall x y, 0 <= x < w -> 0 <= y < h ->
                 getpixel canvas x y
                 = if done (y / edge) (x / edge) then tile_pixel tiles edge x y
                   else Some transparent.

(** The sub-tile that the inner loop of [get_image] appends for a
    position: the fetched tile in RGBA, or a blank tile. *)
Definition sub_tile (net : Network) (parent : Server) (fetch_z fetch_x fetch_y : Z) : Image :=
  match fetch_tile net parent fetch_z fetch_x fetch_y with
  | Ok tile => if negb (String.eqb (mode tile) "RGBA") then convert_RGBA tile else tile
  | Raise _ =>
      let edge := tile_size (_config parent) in
      mkImage edge edge (BandsRGBA (repeat (0, 0, 0, 0) (Z.to_nat (edge * edge))))
  end.

(** The grid of sub-tiles that [get_image] composes for a tile. *)
Definition sub_tiles (net : Network) (parent : Server) (fetch_z x y scale : Z)
  : list (list Image) :=
  map (fun dy =>
         map (fun dx => sub_tile net parent fetch_z (x * scale + dx) (y * scale + dy))
             (range 0 scale))
      (range 0 scale).

(** The smoothing step of [fetch_tiles_for_extent] on a composite: the
    image enlarged by 2 percent with the bicubic filter and brought back to
    its size with the requested filter. *)
Definition smoothed (img : Image) (resample_filter : Filter) : result Picture :=
  enlarged <- resize (Raster img) (scaled_102 (width img), scaled_102 (height img)) BICUBIC ;;
  resize enlarged (width img, height img) resample_filter.

(** The supersample level [get_image] uses for a tile at zoom [z]. *)
Definition actual_supersample (source : UnifiedTileSource) (z : Z) : Z :=
  Z.min (supersample_level source) (zoom_ceiling (parent_instance source) - z).

(** * Properties *)

Example esri_terrain_constructed :
  __init__ _PROVIDERS [] "Esri.Terrain" None = Ok (esri_terrain, []).
Proof. reflexivity. Qed.

Example esri_terrain_url :
  _build_tile_url esri_terrain 10 163 395
  = Ok "https://server.arcgisonline.com/ArcGIS/rest/services/World_Terrain_Base/MapServer/tile/10/395/163".
Proof. reflexivity. Qed.

Example unknown_provider_rejected :
  is_ok (__init__ _PROVIDERS [] "Esri.Nowhere" None) = false.
Proof. reflexivity. Qed.

(** ** Zoom and supersample validation *)

Example validate_10_5_esri :
  exists notice, _validate_zoom_level esri_terrain 10 5 = Ok ((13, 3), [notice]).
Proof. eexists. reflexivity. Qed.

Example validate_10_2_esri :
  _validate_zoom_level esri_terrain 10 2 = Ok ((12, 2), []).
Proof. reflexivity. Qed.

Lemma validate_in_range (self : Server) (z s : Z) :
  zoom_floor self <= z <= zoom_ceiling self ->
  _validate_zoom_level self z s
  = if z + s >? zoom_ceiling self
    then Ok ((z + Z.max 0 (zoom_ceiling self - z), Z.max 0 (zoom_ceiling self - z)),
             [UserWarning (supersample_reduced self (zoom_ceiling self) z s (z + s)
                                               (Z.max 0 (zoom_ceiling self - z)))])
    else Ok ((z + s, s), []).
Proof.
  intros [Hlo Hhi]. unfold _validate_zoom_level.
  destruct (Z.ltb_spec z (zoom_floor self)); [lia|].
  destruct (Z.gtb_spec z (zoom_ceiling self)); [lia|].
  reflexivity.
Qed.

(** C1. For a base zoom within the provider's bounds and a supersample
    [s >= 0], the validator returns [(z + s', s')], where [s' = s] when
    [z + s] does not exceed the ceiling and [s' = max_zoom - z] otherwise;
    the fetch zoom never exceeds the ceiling; for [z = 10], [s = 5] and a
    ceiling of 13 the result is [s' = 3] and a fetch zoom of 13. *)
Theorem validate_zoom_level_clamps (self : Server) (z s : Z) :
  zoom_floor self <= z <= zoom_ceiling self ->
  0 <= s ->
  exists s' notices,
    _validate_zoom_level self z s = Ok ((z + s', s'), notices)
    /\ (z + s <= zoom_ceiling self -> s' = s)
    /\ (zoom_ceiling self < z + s -> s' = zoom_ceiling self - z)
    /\ z + s' <= zoom_ceiling self
    /\ (z = 10 -> s = 5 -> zoom_ceiling self = 13 -> s' = 3 /\ z + s' = 13).
Proof.
  intros Hz Hs. rewrite (validate_in_range self z s Hz).
  destruct (Z.gtb_spec (z + s) (zoom_ceiling self)) as [Hover | Hfit].
  - eexists _, _. split; [reflexivity|]. repeat split; lia.
  - eexists _, _. split; [reflexivity|]. repeat split; lia.
Qed.

Lemma validate_zoom_level_clamps_witness :
  exists s' notices,
    _validate_zoom_level esri_terrain 10 5 = Ok ((10 + s', s'), notices)
    /\ (10 + 5 <= zoom_ceiling esri_terrain -> s' = 5)
    /\ (zoom_ceiling esri_terrain < 10 + 5 -> s' = zoom_ceiling esri_terrain - 10)
    /\ 10 + s' <= zoom_ceiling esri_terrain
    /\ (10 = 10 -> 5 = 5 -> zoom_ceiling esri_terrain = 13 -> s' = 3 /\ 10 + s' = 13).
Proof.
  apply (validate_zoom_level_clamps esri_terrain 10 5); vm_compute; intuition discriminate.
Defined.

(** C2. The validator raises exactly when the base zoom is outside the
    provider's bounds, whatever the supersample; the exception is then a
    [ValueError]; an in-range base zoom never raises, also when
    [z + supersample] exceeds the ceiling; zoom 14 against a ceiling of 13
    raises for every supersample. *)
Theorem validate_zoom_level_raises_iff (self : Server) (z s : Z) :
  ((exists e, _validate_zoom_level self z s = Raise e)
   <-> (z < zoom_floor self \/ zoom_ceiling self < z))
  /\ (forall e, _validate_zoom_level self z s = Raise e -> exists msg, e = ValueError msg)
  /\ (zoom_floor self <= z <= zoom_ceiling self ->
      exists fetch_zoom s' notices,
        _validate_zoom_level self z s = Ok ((fetch_zoom, s'), notices))
  /\ (zoom_ceiling self = 13 -> z = 14 ->
      exists msg, _validate_zoom_level self z s = Raise (ValueError msg)).
Proof.
  assert (Hin : zoom_floor self <= z <= zoom_ceiling self ->
                exists fetch_zoom s' notices,
                  _validate_zoom_level self z s = Ok ((fetch_zoom, s'), notices)).
  { intros Hz. rewrite (validate_in_range self z s Hz).
    destruct (z + s >? zoom_ceiling self); eexists _, _, _; reflexivity. }
  assert (Hout : z < zoom_floor self \/ zoom_ceiling self < z ->
                 exists msg, _validate_zoom_level self z s = Raise (ValueError msg)).
  { intros Hz. unfold _validate_zoom_level.
    destruct (Z.ltb_spec z (zoom_floor self)); [eexists; reflexivity|].
    destruct (Z.gtb_spec z (zoom_ceiling self)); [eexists; reflexivity|]. lia. }
  repeat split.
  - intros [e He].
    destruct (Z_lt_dec z (zoom_floor self)); [now left|].
    destruct (Z_lt_dec (zoom_ceiling self) z); [now right|].
    destruct Hin as (f & s' & w & Hok); [lia|]. congruence.
  - intros Hz. destruct (Hout Hz) as [msg Hmsg]. eauto.
  - intros e He.
    destruct (Z_lt_dec z (zoom_floor self)) as [Hl|Hl];
      [destruct Hout as [msg Hmsg]; [now left|]; exists msg; congruence|].
    destruct (Z_lt_dec (zoom_ceiling self) z) as [Hh|Hh];
      [destruct Hout as [msg Hmsg]; [now right|]; exists msg; congruence|].
    destruct Hin as (f & s' & w & Hok); [lia|]. congruence.
  - exact Hin.
  - intros Hc Hz. apply Hout. lia.
Qed.

Lemma validate_zoom_level_raises_iff_witness :
  (exists fetch_zoom s' notices,
      _validate_zoom_level esri_terrain 10 5 = Ok ((fetch_zoom, s'), notices))
  /\ (exists msg, _validate_zoom_level esri_terrain 14 0 = Raise (ValueError msg)).
Proof.
  split.
  - apply (validate_zoom_level_raises_iff esri_terrain 10 5). vm_compute.
    split; discriminate.
  - apply (validate_zoom_level_raises_iff esri_terrain 14 0); reflexivity.
Defined.

(** ** Chroma-key post-processing *)

Example esri_hydro_constructed :
  __init__ _PROVIDERS [] "Esri.Hydro" None = Ok (esri_hydro, []).
Proof. reflexivity. Qed.

Example black_white_near_black :
  _apply_special_handling esri_hydro
    (mkImage 3 1 (BandsRGB [(0, 0, 0); (255, 255, 255); (1, 1, 1)]))
  = mkImage 3 1 (BandsRGBA [(0, 0, 0, 0); (255, 255, 255, 255); (1, 1, 1, 255)]).
Proof. reflexivity. Qed.

Lemma black_to_transparent_black (a : Z) : black_to_transparent (0, 0, 0, a) = (0, 0, 0, 0).
Proof. reflexivity. Qed.

Lemma black_to_transparent_other (r g b a : Z) :
  r <> 0 \/ g <> 0 \/ b <> 0 -> black_to_transparent (r, g, b, a) = (r, g, b, a).
Proof.
  intros H. unfold black_to_transparent.
  destruct (Z.eqb_spec r 0), (Z.eqb_spec g 0), (Z.eqb_spec b 0); simpl; try reflexivity.
  exfalso. intuition congruence.
Qed.

Lemma apply_special_handling_chroma (self : Server) (img : Image) :
  special_handling (_config self) = Some "make_black_transparent" ->
  _apply_special_handling self img
  = mkImage (width img) (height img) (BandsRGBA (map black_to_transparent (rgba_data img))).
Proof. intros H. unfold _apply_special_handling. rewrite H. reflexivity. Qed.

(** C6. Under the [make_black_transparent] directive the image keeps its
    size and becomes RGBA; every pixel whose red, green and blue are all
    exactly 0 becomes [(0,0,0,0)], and every pixel with a nonzero channel
    keeps the value it has in RGBA; a near-black [(1,1,1)] pixel stays
    opaque. *)
Theorem make_black_transparent_exact (self : Server) (img : Image) :
  special_handling (_config self) = Some "make_black_transparent" ->
  let out := _apply_special_handling self img in
  width out = width img /\ height out = height img /\ mode out = "RGBA"
  /\ List.length (getdata out) = List.length (rgba_data img)
  /\ (forall i r g b a,
         nth_error (rgba_data img) i = Some (r, g, b, a) ->
         (r = 0 /\ g = 0 /\ b = 0 -> nth_error (getdata out) i = Some (0, 0, 0, 0))
         /\ (r <> 0 \/ g <> 0 \/ b <> 0 -> nth_error (getdata out) i = Some (r, g, b, a)))
  /\ getdata (_apply_special_handling self (mkImage 1 1 (BandsRGB [(1, 1, 1)])))
     = [(1, 1, 1, 255)].
Proof.
  intros H out. subst out. rewrite !(apply_special_handling_chroma self _ H).
  cbn [width height mode bands getdata rgba_data].
  repeat split.
  - apply length_map.
  - intros (-> & -> & ->). rewrite nth_error_map, H0. reflexivity.
  - intros Hnz. rewrite nth_error_map, H0. cbn [option_map].
    now rewrite black_to_transparent_other.
Qed.

Lemma make_black_transparent_exact_witness :
  nth_error
    (getdata (_apply_special_handling esri_hydro
                (mkImage 3 1 (BandsRGB [(0, 0, 0); (255, 255, 255); (1, 1, 1)])))) 0
  = Some (0, 0, 0, 0).
Proof.
  refine (proj1 (proj1 (proj2 (proj2 (proj2 (proj2
            (make_black_transparent_exact esri_hydro
               (mkImage 3 1 (BandsRGB [(0, 0, 0); (255, 255, 255); (1, 1, 1)]))
               eq_refl)))))
            0%nat 0 0 0 255 eq_refl) _).
  repeat split; reflexivity.
Defined.

(** The directive is what [fetch_tile] applies to a decoded tile. *)
Lemma fetch_tile_applies_directive (net : Network) (self : Server) (z x y : Z)
      (url : string) (img : Image) :
  special_handling (_config self) = Some "make_black_transparent" ->
  _build_tile_url self z x y = Ok url ->
  net url = Ok (mkResponse 200 (Encoded img)) ->
  fetch_tile net self z x y = Ok (_apply_special_handling self img).
Proof.
  intros Hh Hu Hn. unfold fetch_tile. rewrite Hu. cbn [bind]. rewrite Hn.
  cbn. rewrite Hh. reflexivity.
Qed.

(** ** Resampling filters *)

Example lanczos_upper_case : _get_resample_filter "LANCZOS" = LANCZOS.
Proof. reflexivity. Qed.

Example bicubic_mixed_case : _get_resample_filter "BiCubic" = BICUBIC.
Proof. reflexivity. Qed.

Example nearest_lower_case : _get_resample_filter "nearest" = NEAREST.
Proof. reflexivity. Qed.

Example unknown_method : _get_resample_filter "spline" = LANCZOS.
Proof. reflexivity. Qed.




(** ** Credentials *)

Lemma or_empty_falsy (s : option string) : truthy s = false -> or_empty s = "".
Proof.
  destruct s as [s|]; [|reflexivity]. cbn.
  destruct (String.eqb s ""); [reflexivity|discriminate].
Qed.

Example stadia_constructed_with_warning :
  exists notice,
    __init__ _PROVIDERS [] "Stadia.StamenTerrain" None = Ok (stadia_without_key, [notice]).
Proof. eexists. reflexivity. Qed.

Example stadia_url_without_key :
  _build_tile_url stadia_without_key 0 0 0
  = Ok "https://tiles.stadiamaps.com/tiles/stamen_terrain/0/0/0@2x.png?api_key=".
Proof. reflexivity. Qed.

(** C3, as stated, fails: a client of a provider that requires a
    credential, constructed with no key and an empty environment, fetches a
    tile successfully when the server answers 200. *)
Lemma fetch_without_credential_succeeds :
  requires_api_key (_config stadia_without_key) = true
  /\ api_key stadia_without_key = None
  /\ (exists notice,
         __init__ _PROVIDERS [] "Stadia.StamenTerrain" None
         = Ok (stadia_without_key, [notice]))
  /\ fetch_tile (answering_200 red_pixel) stadia_without_key 0 0 0 = Ok red_pixel.
Proof.
  repeat split. eexists. reflexivity.
Qed.

(** What [fetch_tile] does once the URL is built: every outcome of the
    request decides the outcome of the fetch, and the credential of the
    client plays no part. *)
Lemma fetch_tile_outcomes (net : Network) (self : Server) (z x y : Z) :
  (forall e, _build_tile_url self z x y = Raise e -> fetch_tile net self z x y = Raise e)
  /\ forall url,
      _build_tile_url self z x y = Ok url ->
      (forall e, net url = Raise e -> fetch_tile net self z x y = Raise e)
      /\ (forall status payload,
             net url = Ok (mkResponse status payload) -> status <> 200 ->
             fetch_tile net self z x y = Raise (Exception (fetch_failed self status url)))
      /\ (net url = Ok (mkResponse 200 Garbage) ->
          fetch_tile net self z x y = Raise UnidentifiedImageError)
      /\ (forall img,
             net url = Ok (mkResponse 200 (Encoded img)) ->
             fetch_tile net self z x y
             = Ok (if truthy (special_handling (_config self))
                   then _apply_special_handling self img else img)).
Proof.
  unfold fetch_tile. split.
  - intros e ->. reflexivity.
  - intros url ->. cbn [bind]. split; [|split; [|split]].
    + intros e ->. reflexivity.
    + intros status payload -> Hstatus. cbn [bind status_code].
      destruct (Z.eqb_spec status 200); [contradiction | reflexivity].
    + intros ->. reflexivity.
    + intros img ->. cbn [bind status_code content Image_open Z.eqb Pos.eqb].
      destruct (truthy (special_handling (_config self))); reflexivity.
Qed.

(** C3, amended. For a provider in the registry whose profile requires a
    credential, construction never fails, whatever the key and the
    environment: it issues one warning exactly when no key is passed, an
    environment variable is known for the provider and that variable is
    unset or empty, and no warning otherwise.  A fetch does not check the
    credential: when the credential of the client is unresolved, the URL of
    a tile is the template formatted with an empty credential, the request
    is sent to it, and the fetch returns the decoded tile (post-processed
    when the provider has a directive) whenever the answer has status 200
    and a decodable image; it fails only as any fetch fails, with the error
    of formatting the URL, the error of the transport, the HTTP-status
    [Exception] or the decoder's error. *)
Theorem unresolved_credential_not_checked
        (registry : list (string * Config)) (environ : Environ)
        (name : string) (cfg : Config) (key : option string) :
  providers_get registry name = Some cfg ->
  requires_api_key cfg = true ->
  let env_key :=
    if truthy (api_env cfg) then api_env cfg
    else if contains "Stadia" name then Some "STADIA_API_KEY" else None in
  exists self notices,
    __init__ registry environ name key = Ok (self, notices)
    /\ provider self = name /\ _config self = cfg
    /\ notices
       = (if negb (truthy key) && truthy env_key
             && negb (truthy (lookup environ (or_empty env_key)))
          then [UserWarning ("Provider '" ++ name
                               ++ "' requires an API key. Provide it via api_key parameter or "
                               ++ or_empty env_key ++ " environment variable.")]
          else [])
    /\ (truthy (api_key self) = false ->
        forall (net : Network) (z x y : Z),
          _build_tile_url self z x y
          = format (url_template cfg)
                   [("z", str z); ("x", str x); ("y", str y); ("api_key", "")]
          /\ (forall e, _build_tile_url self z x y = Raise e ->
                        fetch_tile net self z x y = Raise e)
          /\ forall url,
              _build_tile_url self z x y = Ok url ->
              (forall e, net url = Raise e -> fetch_tile net self z x y = Raise e)
              /\ (forall status payload,
                     net url = Ok (mkResponse status payload) -> status <> 200 ->
                     fetch_tile net self z x y
                     = Raise (Exception (fetch_failed self status url)))
              /\ (net url = Ok (mkResponse 200 Garbage) ->
                  fetch_tile net self z x y = Raise UnidentifiedImageError)
              /\ (forall img,
                     net url = Ok (mkResponse 200 (Encoded img)) ->
                     fetch_tile net self z x y
                     = Ok (if truthy (special_handling cfg)
                           then _apply_special_handling self img else img))).
Proof.
  intros Hget Hreq env_key.
  assert (Hfetch : forall self : Server,
             _config self = cfg -> truthy (api_key self) = false ->
             forall (net : Network) (z x y : Z),
               _build_tile_url self z x y
               = format (url_template cfg)
                        [("z", str z); ("x", str x); ("y", str y); ("api_key", "")]
               /\ (forall e, _build_tile_url self z x y = Raise e ->
                             fetch_tile net self z x y = Raise e)
               /\ forall url,
                   _build_tile_url self z x y = Ok url ->
                   (forall e, net url = Raise e -> fetch_tile net self z x y = Raise e)
                   /\ (forall status payload,
                          net url = Ok (mkResponse status payload) -> status <> 200 ->
                          fetch_tile net self z x y
                          = Raise (Exception (fetch_failed self status url)))
                   /\ (net url = Ok (mkResponse 200 Garbage) ->
                       fetch_tile net self z x y = Raise UnidentifiedImageError)
                   /\ (forall img,
                          net url = Ok (mkResponse 200 (Encoded img)) ->
                          fetch_tile net self z x y
                          = Ok (if truthy (special_handling cfg)
                                then _apply_special_handling self img else img))).
  { intros self Hc Hk net z x y. split.
    - unfold _build_tile_url, get_url_template. now rewrite Hc, (or_empty_falsy _ Hk).
    - rewrite <- Hc. apply fetch_tile_outcomes. }
  unfold __init__. rewrite Hget, Hreq. fold env_key.
  destruct (truthy key); cbn [negb andb].
  { eexists _, _. split; [reflexivity|]. repeat (split; [reflexivity|]).
    now apply Hfetch. }
  destruct (truthy env_key); cbn [andb].
  2:{ eexists _, _. split; [reflexivity|]. repeat (split; [reflexivity|]).
      now apply Hfetch. }
  destruct (truthy (lookup environ (or_empty env_key))); cbn [negb];
    (eexists _, _; split; [reflexivity|]; repeat (split; [reflexivity|]);
     now apply Hfetch).
Qed.

Lemma unresolved_credential_not_checked_witness :
  exists self notices,
    __init__ _PROVIDERS [] "Stadia.StamenTerrain" None = Ok (self, notices)
    /\ provider self = "Stadia.StamenTerrain"
    /\ _config self = _config stadia_without_key
    /\ notices
       = [UserWarning "Provider 'Stadia.StamenTerrain' requires an API key. Provide it via api_key parameter or STADIA_API_KEY environment variable."]
    /\ (truthy (api_key self) = false ->
        forall (net : Network) (z x y : Z),
          _build_tile_url self z x y
          = format (url_template (_config stadia_without_key))
                   [("z", str z); ("x", str x); ("y", str y); ("api_key", "")]
          /\ (forall e, _build_tile_url self z x y = Raise e ->
                        fetch_tile net self z x y = Raise e)
          /\ forall url,
              _build_tile_url self z x y = Ok url ->
              (forall e, net url = Raise e -> fetch_tile net self z x y = Raise e)
              /\ (forall status payload,
                     net url = Ok (mkResponse status payload) -> status <> 200 ->
                     fetch_tile net self z x y
                     = Raise (Exception (fetch_failed self status url)))
              /\ (net url = Ok (mkResponse 200 Garbage) ->
                  fetch_tile net self z x y = Raise UnidentifiedImageError)
              /\ (forall img,
                     net url = Ok (mkResponse 200 (Encoded img)) ->
                     fetch_tile net self z x y
                     = Ok (if truthy (special_handling (_config stadia_without_key))
                           then _apply_special_handling self img else img))).
Proof.
  apply (unresolved_credential_not_checked _PROVIDERS [] "Stadia.StamenTerrain"
           (_config stadia_without_key) None); reflexivity.
Defined.

(** ** Loops *)

Lemma for_each_seq_invariant {St : Type} (I : Z -> St -> Prop) (body : Z -> St -> result St)
      (n : Z) (m a : nat) (s : St) :
  Z.of_nat (a + m) <= n ->
  I (Z.of_nat a) s ->
  (forall k s, 0 <= k < n -> I k s -> exists s', body k s = Ok s' /\ I (k + 1) s') ->
  exists s', for_each (map (fun i => 0 + Z.of_nat i) (seq a m)) body s = Ok s'
             /\ I (Z.of_nat (a + m)) s'.
Proof.
  intros Hn Ha Hstep. revert a s Hn Ha.
  induction m as [|m IH]; intros a s Hn Ha.
  - exists s. rewrite Nat.add_0_r. split; [reflexivity|assumption].
  - cbn [seq map for_each].
    destruct (Hstep (Z.of_nat a) s) as (s1 & Hbody & Hs1); [lia|assumption|].
    rewrite Z.add_0_l, Hbody. cbn [bind].
    destruct (IH (S a) s1) as (s2 & Hrest & Hs2); [lia| |].
    + replace (Z.of_nat (S a)) with (Z.of_nat a + 1) by lia. assumption.
    + exists s2. split; [assumption|].
      replace (a + S m)%nat with (S a + m)%nat by lia. assumption.
Qed.

(** A [for k in range(n)] loop whose body keeps an invariant runs to
    completion and establishes the invariant at [n]. *)
Lemma for_each_range_invariant {St : Type} (I : Z -> St -> Prop) (body : Z -> St -> result St)
      (n : Z) (s : St) :
  0 <= n ->
  I 0 s ->
  (forall k s, 0 <= k < n -> I k s -> exists s', body k s = Ok s' /\ I (k + 1) s') ->
  exists s', for_each (range 0 n) body s = Ok s' /\ I n s'.
Proof.
  intros Hn H0 Hstep. unfold range. rewrite Z.sub_0_r.
  destruct (for_each_seq_invariant I body n (Z.to_nat n) 0 s) as (s' & Hrun & Hs');
    [cbn; lia | exact H0 | exact Hstep |].
  exists s'. split; [exact Hrun|].
  replace (Z.of_nat (0 + Z.to_nat n)) with n in Hs' by lia. exact Hs'.
Qed.

(** ** Pixels of a pasted image *)

Lemma mapi_from_length {A B : Type} (f : nat -> A -> B) (i : nat) (l : list A) :
  List.length (mapi_from f i l) = List.length l.
Proof. revert i. induction l as [|a l IH]; intros i; cbn; [reflexivity|now rewrite IH]. Qed.

Lemma mapi_from_nth_error {A B : Type} (f : nat -> A -> B) (i k : nat) (l : list A) :
  nth_error (mapi_from f i l) k = option_map (f (i + k)%nat) (nth_error l k).
Proof.
  revert i k. induction l as [|a l IH]; intros i k.
  - destruct k; reflexivity.
  - destruct k as [|k]; cbn.
    + now rewrite Nat.add_0_r.
    + rewrite IH. now replace (S i + k)%nat with (i + S k)%nat by lia.
Qed.

Lemma Image_new_ok (w h : Z) (color : RGBA) :
  0 <= w -> 0 <= h ->
  Image_new (w, h) color = Ok (mkImage w h (BandsRGBA (repeat color (Z.to_nat (w * h))))).
Proof.
  intros Hw Hh. unfold Image_new.
  destruct (Z.ltb_spec w 0); [lia|]. destruct (Z.ltb_spec h 0); [lia|]. reflexivity.
Qed.

Lemma blank_well_formed (w h : Z) (color : RGBA) :
  0 <= w -> 0 <= h ->
  well_formed (mkImage w h (BandsRGBA (repeat color (Z.to_nat (w * h))))).
Proof. intros Hw Hh. repeat split; cbn; try assumption. apply repeat_length. Qed.

Lemma getpixel_in_range (img : Image) (x y : Z) :
  well_formed img -> 0 <= x < width img -> 0 <= y < height img ->
  exists p, getpixel img x y = Some p.
Proof.
  intros (Hw & Hh & Hlen) Hx Hy. unfold getpixel.
  destruct (Z.leb_spec 0 x); [|lia]. destruct (Z.ltb_spec x (width img)); [|lia].
  destruct (Z.leb_spec 0 y); [|lia]. destruct (Z.ltb_spec y (height img)); [|lia].
  cbn [andb].
  destruct (nth_error (rgba_data img) (Z.to_nat (y * width img + x))) as [p|] eqn:E;
    [now exists p|].
  apply nth_error_None in E. rewrite Hlen in E. nia.
Qed.

Lemma getpixel_out_of_range (img : Image) (x y : Z) :
  ~ (0 <= x < width img /\ 0 <= y < height img) -> getpixel img x y = None.
Proof.
  intros H. unfold getpixel.
  destruct (Z.leb_spec 0 x); [|reflexivity].
  destruct (Z.ltb_spec x (width img)); [|reflexivity].
  destruct (Z.leb_spec 0 y); [|reflexivity].
  destruct (Z.ltb_spec y (height img)); [|reflexivity].
  exfalso. apply H. lia.
Qed.

Lemma getpixel_blank (w h : Z) (color : RGBA) (x y : Z) :
  0 <= x < w -> 0 <= y < h ->
  getpixel (mkImage w h (BandsRGBA (repeat color (Z.to_nat (w * h))))) x y = Some color.
Proof.
  intros Hx Hy.
  destruct (getpixel_in_range (mkImage w h (BandsRGBA (repeat color (Z.to_nat (w * h))))) x y)
    as [p Hp]; [apply blank_well_formed; lia | cbn; lia | cbn; lia |].
  rewrite Hp. f_equal. unfold getpixel in Hp. cbn in Hp.
  destruct ((0 <=? x) && (x <? w) && (0 <=? y) && (y <? h)); [|discriminate].
  apply nth_error_In in Hp. now apply repeat_spec in Hp.
Qed.

Lemma paste_size (canvas im : Image) (box : Z * Z) :
  width (paste canvas im box) = width canvas
  /\ height (paste canvas im box) = height canvas
  /\ mode (paste canvas im box) = "RGBA".
Proof. destruct box. repeat split. Qed.

Lemma paste_well_formed (canvas im : Image) (box : Z * Z) :
  well_formed canvas -> well_formed (paste canvas im box).
Proof.
  intros (Hw & Hh & Hlen). destruct box as [x0 y0].
  repeat split; cbn; try assumption. now rewrite mapi_from_length.
Qed.

(** Pasting overwrites exactly the pixels under the pasted image. *)
Lemma getpixel_paste (canvas im : Image) (x0 y0 x y : Z) :
  well_formed canvas -> 0 <= x < width canvas -> 0 <= y < height canvas ->
  getpixel (paste canvas im (x0, y0)) x y
  = match getpixel im (x - x0) (y - y0) with
    | Some p => Some p
    | None => getpixel canvas x y
    end.
Proof.
  intros Hwf Hx Hy.
  destruct (getpixel_in_range canvas x y Hwf Hx Hy) as [old Hold]. rewrite Hold.
  unfold getpixel in Hold |- *. cbn [paste putdata width height rgba_data bands].
  destruct ((0 <=? x) && (x <? width canvas) && (0 <=? y) && (y <? height canvas));
    [|discriminate].
  rewrite mapi_from_nth_error, Hold. cbn [option_map Nat.add].
  assert (Hidx : Z.of_nat (Z.to_nat (y * width canvas + x)) = x + y * width canvas) by nia.
  rewrite Hidx, Z.mod_add, Z.div_add, Z.mod_small, Z.div_small by lia.
  cbn [Z.add].
  fold (getpixel im (x - x0) (y - y0)).
  destruct (getpixel im (x - x0) (y - y0)); reflexivity.
Qed.

(** ** The compositor *)

Lemma rectangular_getitem (tiles : list (list Image)) (cols row col : Z) :
  rectangular tiles cols ->
  0 <= row < Z.of_nat (List.length tiles) -> 0 <= col < cols ->
  exists tiles_row tile,
    getitem tiles row = Ok tiles_row /\ getitem tiles_row col = Ok tile
    /\ tile_at tiles row col = Some tile /\ In tiles_row tiles /\ In tile tiles_row.
Proof.
  intros Hrect Hrow Hcol.
  destruct (nth_error tiles (Z.to_nat row)) as [tiles_row|] eqn:Er;
    [|apply nth_error_None in Er; lia].
  pose proof (nth_error_In _ _ Er) as Hin.
  pose proof (proj1 (Forall_forall _ _) Hrect _ Hin) as Hlen. cbn in Hlen.
  destruct (nth_error tiles_row (Z.to_nat col)) as [tile|] eqn:Ec;
    [|apply nth_error_None in Ec; lia].
  exists tiles_row, tile. unfold getitem, tile_at. rewrite Er, Ec.
  repeat split; try assumption.
  eapply nth_error_In; eassumption.
Qed.

Lemma combine_tiles_grid (tiles : list (list Image)) (tile_size : Z) :
  0 < Z.of_nat (List.length tiles) ->
  0 < Z.of_nat (List.length (nth 0 tiles [])) ->
  combine_tiles tiles tile_size
  = (combined_img <- Image_new (Z.of_nat (List.length (nth 0 tiles [])) * tile_size,
                                Z.of_nat (List.length tiles) * tile_size) transparent ;;
     for_each (range 0 (Z.of_nat (List.length tiles)))
       (fun row combined_img =>
          for_each (range 0 (Z.of_nat (List.length (nth 0 tiles []))))
            (fun col combined_img =>
               tiles_row <- getitem tiles row ;;
               tile <- getitem tiles_row col ;;
               Ok (paste combined_img tile (col * tile_size, row * tile_size)))
            combined_img)
       combined_img).
Proof.
  intros Hr Hc. unfold combine_tiles.
  destruct (Z.gtb_spec (Z.of_nat (List.length tiles)) 0); [|lia].
  destruct (Z.eqb_spec (Z.of_nat (List.length tiles)) 0); [lia|].
  destruct (Z.eqb_spec (Z.of_nat (List.length (nth 0 tiles []))) 0); [lia|].
  reflexivity.
Qed.

(** The canvas of a rectangular grid has the size of the grid, whatever
    the sizes of the tiles. *)
Lemma combine_tiles_size (tiles : list (list Image)) (tile_size : Z) :
  let rows := Z.of_nat (List.length tiles) in
  let cols := Z.of_nat (List.length (nth 0 tiles [])) in
  0 <= tile_size -> 0 < rows -> 0 < cols -> rectangular tiles cols ->
  exists img,
    combine_tiles tiles tile_size = Ok img
    /\ mode img = "RGBA" /\ width img = cols * tile_size /\ height img = rows * tile_size
    /\ well_formed img.
Proof.
  intros rows cols Hts Hrows Hcols Hrect.
  rewrite combine_tiles_grid by assumption. fold rows cols.
  rewrite Image_new_ok by nia. cbn [bind].
  set (Inv := fun (_ : Z) (img : Image) =>
                mode img = "RGBA" /\ width img = cols * tile_size
                /\ height img = rows * tile_size /\ well_formed img).
  destruct (for_each_range_invariant Inv
              (fun row combined_img =>
                 for_each (range 0 cols)
                   (fun col combined_img =>
                      tiles_row <- getitem tiles row ;;
                      tile <- getitem tiles_row col ;;
                      Ok (paste combined_img tile (col * tile_size, row * tile_size)))
                   combined_img)
              rows
              (mkImage (cols * tile_size) (rows * tile_size)
                       (BandsRGBA (repeat transparent
                                          (Z.to_nat (cols * tile_size * (rows * tile_size)))))))
    as (img & Hrun & Himg).
  - lia.
  - repeat split; try reflexivity; cbn; try nia. apply repeat_length.
  - intros row canvas Hrow Hcanvas.
    apply (for_each_range_invariant (fun _ : Z => Inv (row + 1))); [lia | exact Hcanvas |].
    intros col canvas' Hcol (Hm & Hw & Hh & Hwf).
    destruct (rectangular_getitem tiles cols row col Hrect) as (tr & t & Hr & Hc & _);
      [fold rows; lia | lia |].
    rewrite Hr. cbn [bind]. rewrite Hc. cbn [bind].
    eexists. split; [reflexivity|].
    repeat split; try assumption; try apply paste_well_formed; try assumption.
    all: now destruct Hwf as (? & ? & ?).
  - exists img. split; [exact Hrun|]. exact Himg.
Qed.

Lemma composed_paste (tiles : list (list Image)) (edge rows cols row col : Z)
      (tile canvas : Image) :
  0 <= row < rows -> 0 <= col < cols ->
  tile_at tiles row col = Some tile -> tile_ok edge tile ->
  composed tiles edge (fun r c => (r <? row) || ((r =? row) && (c <? col)))
           (cols * edge) (rows * edge) canvas ->
  composed tiles edge (fun r c => (r <? row) || ((r =? row) && (c <? col + 1)))
           (cols * edge) (rows * edge) (paste canvas tile (col * edge, row * edge)).
Proof.
  intros Hrow Hcol Hat (Hw & Hh & Hwf) (Hcwf & Hcw & Hch & Hpix).
  split; [now apply paste_well_formed|]. split; [exact Hcw|]. split; [exact Hch|].
  intros x y Hx Hy.
  assert (Hedge : 0 < edge) by nia.
  rewrite getpixel_paste by (rewrite ?Hcw, ?Hch; assumption).
  rewrite (Hpix x y Hx Hy).
  pose proof (Z.div_mod x edge ltac:(lia)) as Hxd.
  pose proof (Z.mod_pos_bound x edge Hedge) as Hxm.
  pose proof (Z.div_mod y edge ltac:(lia)) as Hyd.
  pose proof (Z.mod_pos_bound y edge Hedge) as Hym.
  destruct (Z.eq_dec (x / edge) col) as [Ec|Ec];
    [destruct (Z.eq_dec (y / edge) row) as [Er|Er]|].
  - (* the pixel lies under the pasted tile *)
    replace (x - col * edge) with (x mod edge) by nia.
    replace (y - row * edge) with (y mod edge) by nia.
    destruct (getpixel_in_range tile (x mod edge) (y mod edge) Hwf) as [p Hp];
      [lia | lia |].
    rewrite Hp. unfold tile_pixel. rewrite Er, Ec, Hat, Hp.
    rewrite Z.ltb_irrefl, Z.eqb_refl.
    destruct (Z.ltb_spec col (col + 1)); [reflexivity|lia].
  - rewrite getpixel_out_of_range by (rewrite Hw, Hh; nia).
    destruct (Z.eqb_spec (y / edge) row); [contradiction|]. reflexivity.
  - rewrite getpixel_out_of_range by (rewrite Hw, Hh; nia).
    destruct (Z.ltb_spec (x / edge) col), (Z.ltb_spec (x / edge) (col + 1));
      try reflexivity; lia.
Qed.

(** When every tile is a square of edge [tile_size], each pixel of the
    canvas is the pixel of the tile that covers it. *)
Lemma combine_tiles_pixels (tiles : list (list Image)) (tile_size : Z) :
  let rows := Z.of_nat (List.length tiles) in
  let cols := Z.of_nat (List.length (nth 0 tiles [])) in
  0 <= tile_size -> 0 < rows -> 0 < cols -> rectangular tiles cols ->
  Forall (Forall (tile_ok tile_size)) tiles ->
  exists img,
    combine_tiles tiles tile_size = Ok img
    /\ composed tiles tile_size (fun r _ => r <? rows) (cols * tile_size) (rows * tile_size) img.
Proof.
  intros rows cols Hts Hrows Hcols Hrect Hok.
  rewrite combine_tiles_grid by assumption. fold rows cols.
  rewrite Image_new_ok by nia. cbn [bind].
  set (W := cols * tile_size). set (H := rows * tile_size).
  apply (for_each_range_invariant
           (fun row => composed tiles tile_size (fun r _ => r <? row) W H)).
  - lia.
  - split; [apply blank_well_formed; subst W H; nia|].
    split; [reflexivity|]. split; [reflexivity|].
    intros x y Hx Hy. rewrite getpixel_blank by assumption.
    destruct (Z.ltb_spec (y / tile_size) 0) as [Hneg|]; [|reflexivity].
    assert (0 < tile_size) by (subst W; nia).
    pose proof (Z.div_pos y tile_size). lia.
  - intros row canvas Hrow Hcanvas.
    destruct (for_each_range_invariant
                (fun col => composed tiles tile_size
                                     (fun r c => (r <? row) || ((r =? row) && (c <? col))) W H)
                (fun col combined_img =>
                   tiles_row <- getitem tiles row ;;
                   tile <- getitem tiles_row col ;;
                   Ok (paste combined_img tile (col * tile_size, row * tile_size)))
                cols canvas) as (canvas' & Hrun & Hcanvas').
    + lia.
    + destruct Hcanvas as (Hwf & Hw & Hh & Hpix).
      split; [exact Hwf|]. split; [exact Hw|]. split; [exact Hh|].
      intros x y Hx Hy. rewrite (Hpix x y Hx Hy).
      assert (0 < tile_size) by (subst W; nia).
      pose proof (Z.div_pos x tile_size).
      destruct (Z.ltb_spec (x / tile_size) 0); [lia|].
      now rewrite andb_false_r, orb_false_r.
    + intros col canvas0 Hcol Hcanvas0.
      destruct (rectangular_getitem tiles cols row col Hrect)
        as (tr & t & Hr & Hc & Hat & Hin1 & Hin2); [fold rows; lia | lia |].
      rewrite Hr. cbn [bind]. rewrite Hc. cbn [bind].
      eexists. split; [reflexivity|].
      apply (composed_paste tiles tile_size rows cols row col t canvas0);
        try assumption.
      pose proof (proj1 (Forall_forall _ _) Hok _ Hin1) as Hrowok.
      exact (proj1 (Forall_forall _ _) Hrowok _ Hin2).
    + exists canvas'. split; [exact Hrun|].
      destruct Hcanvas' as (Hwf & Hw & Hh & Hpix).
      split; [exact Hwf|]. split; [exact Hw|]. split; [exact Hh|].
      intros x y Hx Hy. rewrite (Hpix x y Hx Hy).
      assert (0 < tile_size) by (subst W; nia).
      assert (x / tile_size < cols) by (apply Z.div_lt_upper_bound; subst W; nia).
      destruct (Z.ltb_spec (x / tile_size) cols); [|lia].
      rewrite andb_true_r.
      destruct (Z.ltb_spec (y / tile_size) row), (Z.eqb_spec (y / tile_size) row),
        (Z.ltb_spec (y / tile_size) (row + 1)); try reflexivity; lia.
Qed.

Lemma tile_at_in_range (tiles : list (list Image)) (cols row col : Z) (tile : Image) :
  rectangular tiles cols -> 0 <= row -> 0 <= col ->
  tile_at tiles row col = Some tile ->
  row < Z.of_nat (List.length tiles) /\ col < cols.
Proof.
  intros Hrect Hrow Hcol Hat. unfold tile_at in Hat.
  destruct (nth_error tiles (Z.to_nat row)) as [tiles_row|] eqn:Er; [|discriminate].
  pose proof (nth_error_In _ _ Er) as Hin.
  pose proof (proj1 (Forall_forall _ _) Hrect _ Hin) as Hlen. cbn in Hlen.
  assert (Z.to_nat row < List.length tiles)%nat by (apply nth_error_Some; congruence).
  assert (Z.to_nat col < List.length tiles_row)%nat by (apply nth_error_Some; congruence).
  lia.
Qed.

Example combine_two_by_two :
  combine_tiles
    [[mkImage 1 1 (BandsRGB [(10, 0, 0)]); mkImage 1 1 (BandsRGBA [(20, 0, 0, 7)])];
     [mkImage 1 1 (BandsL [30]); mkImage 1 1 (BandsRGB [(40, 0, 0)])]] 1
  = Ok (mkImage 2 2 (BandsRGBA [(10, 0, 0, 255); (20, 0, 0, 7);
                                (30, 30, 30, 255); (40, 0, 0, 255)])).
Proof. reflexivity. Qed.

Example combine_empty_grid_256 :
  exists img, combine_tiles [] 256 = Ok img /\ width img = 256 /\ height img = 256
              /\ getpixel img 0 0 = Some (0, 0, 0, 0)
              /\ getpixel img 255 255 = Some (0, 0, 0, 0).
Proof.
  eexists. split; [reflexivity|]. cbn [width height].
  split; [reflexivity|]. split; [reflexivity|].
  split; apply (getpixel_blank 256 256); lia.
Qed.

Example combine_ragged_grid :
  combine_tiles [[red_pixel; red_pixel]; [red_pixel]] 1 = Raise IndexError.
Proof. reflexivity. Qed.

(** A grid with no rows or no columns gives one blank tile. *)
Lemma combine_tiles_degenerate (tiles : list (list Image)) (tile_size : Z) :
  0 <= tile_size ->
  Z.of_nat (List.length tiles) = 0 \/ Z.of_nat (List.length (nth 0 tiles [])) = 0 ->
  combine_tiles tiles tile_size
  = Ok (mkImage tile_size tile_size
                (BandsRGBA (repeat (0, 0, 0, 0) (Z.to_nat (tile_size * tile_size))))).
Proof.
  intros Hts Hdeg. unfold combine_tiles. cbv zeta.
  destruct (Z.eqb_spec (Z.of_nat (List.length tiles)) 0) as [Hr|Hr]; cbn [orb].
  - now apply Image_new_ok.
  - destruct Hdeg as [Hr'|Hc]; [contradiction|]. rewrite Hc.
    destruct (Z.of_nat (List.length tiles) >? 0); cbn [Z.eqb]; now apply Image_new_ok.
Qed.

(** The canvas of a rectangular grid, and its pixels when the tiles are
    squares of the given edge. *)
Lemma combine_tiles_rectangular (tiles : list (list Image)) (tile_size : Z) :
  let rows := Z.of_nat (List.length tiles) in
  let cols := Z.of_nat (List.length (nth 0 tiles [])) in
  0 <= tile_size -> 0 < rows -> 0 < cols -> rectangular tiles cols ->
  exists img,
    combine_tiles tiles tile_size = Ok img
    /\ mode img = "RGBA"
    /\ width img = cols * tile_size /\ height img = rows * tile_size
    /\ (Forall (Forall (tile_ok tile_size)) tiles ->
        forall row col tile i j,
          0 <= row -> 0 <= col -> tile_at tiles row col = Some tile ->
          0 <= i < tile_size -> 0 <= j < tile_size ->
          getpixel img (col * tile_size + i) (row * tile_size + j) = getpixel tile i j).
Proof.
  intros rows cols Hts Hrows Hcols Hrect.
  destruct (combine_tiles_size tiles tile_size Hts Hrows Hcols Hrect)
    as (img & Hrun & Hmode & Hw & Hh & _).
  exists img. split; [exact Hrun|]. split; [exact Hmode|].
  split; [exact Hw|]. split; [exact Hh|].
  intros Hok row col tile i j Hrow Hcol Hat Hi Hj.
  destruct (combine_tiles_pixels tiles tile_size Hts Hrows Hcols Hrect Hok)
    as (img' & Hrun' & _ & _ & _ & Hpix).
  fold rows cols in Hpix.
  assert (img' = img) by congruence. subst img'.
  destruct (tile_at_in_range tiles cols row col tile Hrect Hrow Hcol Hat) as [Hr Hc].
  fold rows in Hr.
  rewrite Hpix by nia. unfold tile_pixel.
  replace (col * tile_size + i) with (i + col * tile_size) by lia.
  replace (row * tile_size + j) with (j + row * tile_size) by lia.
  rewrite !Z.div_add, !Z.mod_add, !Z.div_small, !Z.mod_small by lia.
  cbn [Z.add]. rewrite Hat.
  destruct (Z.ltb_spec row rows); [reflexivity|lia].
Qed.

(** C7. For a rectangular grid of [rows] by [cols] tiles, both positive,
    [combine_tiles] returns an RGBA image of [cols * tile_size] by
    [rows * tile_size] pixels, and when the tiles are squares of edge
    [tile_size] the pixel at offset [(i, j)] of the tile in row [row] and
    column [col] is, unchanged, the pixel at
    [(col * tile_size + i, row * tile_size + j)] of the result; a grid
    with no rows or no columns gives one blank, fully transparent image of
    [tile_size] by [tile_size] pixels. *)
Theorem combine_tiles_canvas (tiles : list (list Image)) (tile_size : Z) :
  let rows := Z.of_nat (List.length tiles) in
  let cols := Z.of_nat (List.length (nth 0 tiles [])) in
  0 <= tile_size ->
  (rows = 0 \/ cols = 0 ->
   combine_tiles tiles tile_size
   = Ok (mkImage tile_size tile_size
                 (BandsRGBA (repeat (0, 0, 0, 0) (Z.to_nat (tile_size * tile_size))))))
  /\ (0 < rows -> 0 < cols -> rectangular tiles cols ->
      exists img,
        combine_tiles tiles tile_size = Ok img
        /\ mode img = "RGBA"
        /\ width img = cols * tile_size /\ height img = rows * tile_size
        /\ (Forall (Forall (tile_ok tile_size)) tiles ->
            forall row col tile i j,
              0 <= row -> 0 <= col -> tile_at tiles row col = Some tile ->
              0 <= i < tile_size -> 0 <= j < tile_size ->
              getpixel img (col * tile_size + i) (row * tile_size + j) = getpixel tile i j)).
Proof.
  intros rows cols Hts. split.
  - now apply combine_tiles_degenerate.
  - now apply combine_tiles_rectangular.
Qed.

Lemma combine_tiles_canvas_witness :
  (exists img,
      combine_tiles [[red_pixel; red_pixel]; [red_pixel; red_pixel]] 1 = Ok img
      /\ mode img = "RGBA" /\ width img = 2 /\ height img = 2
      /\ getpixel img 1 1 = Some (255, 0, 0, 255))
  /\ combine_tiles [] 256
     = Ok (mkImage 256 256 (BandsRGBA (repeat (0, 0, 0, 0) (Z.to_nat (256 * 256))))).
Proof.
  split.
  - destruct (proj2 (combine_tiles_canvas [[red_pixel; red_pixel]; [red_pixel; red_pixel]] 1
                                          ltac:(lia)))
      as (img & Hrun & Hmode & Hw & Hh & Hpix).
    + reflexivity.
    + reflexivity.
    + repeat constructor.
    + exists img. split; [exact Hrun|]. split; [exact Hmode|].
      split; [exact Hw|]. split; [exact Hh|].
      apply (Hpix ltac:(repeat constructor; cbn; lia) 1 1 red_pixel 0 0);
        try lia; reflexivity.
  - apply (proj1 (combine_tiles_canvas [] 256 ltac:(lia))). now left.
Defined.

(** A 2x2 grid of tiles with a tile edge of 256 gives a 512x512 canvas. *)
Lemma combine_two_by_two_256 (a b c d : Image) :
  exists img, combine_tiles [[a; b]; [c; d]] 256 = Ok img
              /\ width img = 512 /\ height img = 512.
Proof.
  destruct (combine_tiles_size [[a; b]; [c; d]] 256) as (img & Hrun & _ & Hw & Hh & _);
    try (cbn; lia).
  - repeat constructor.
  - exists img. cbn in Hw, Hh. auto.
Qed.

(** ** The lazy tile adapter *)

Lemma collect_map {A B : Type} (f : A -> result B) (g : A -> B) (xs : list A) :
  (forall x, In x xs -> f x = Ok (g x)) -> collect f xs = Ok (map g xs).
Proof.
  induction xs as [|x xs IH]; intros H; [reflexivity|].
  cbn [collect map]. rewrite (H x (or_introl eq_refl)). cbn [bind].
  rewrite IH by (intros; apply H; now right). reflexivity.
Qed.

Lemma range_length (n : Z) : List.length (range 0 n) = Z.to_nat n.
Proof. unfold range. now rewrite length_map, length_seq, Z.sub_0_r. Qed.

Lemma range_nth_error (n k : Z) :
  0 <= k < n -> nth_error (range 0 n) (Z.to_nat k) = Some k.
Proof.
  intros Hk. unfold range. rewrite nth_error_map, Z.sub_0_r.
  rewrite nth_error_seq.
  destruct (Nat.ltb_spec (Z.to_nat k) (Z.to_nat n)); [|lia].
  cbn. f_equal. lia.
Qed.

Lemma rgba_data_convert (img : Image) : rgba_data (convert_RGBA img) = rgba_data img.
Proof. reflexivity. Qed.

Lemma getpixel_convert (img : Image) (x y : Z) :
  getpixel (convert_RGBA img) x y = getpixel img x y.
Proof. reflexivity. Qed.

Lemma tile_ok_convert (edge : Z) (img : Image) : tile_ok edge img -> tile_ok edge (convert_RGBA img).
Proof. intros H. exact H. Qed.

Lemma tile_ok_blank (edge : Z) (color : RGBA) :
  0 <= edge ->
  tile_ok edge (mkImage edge edge (BandsRGBA (repeat color (Z.to_nat (edge * edge))))).
Proof. intros H. split; [reflexivity|]. split; [reflexivity|]. now apply blank_well_formed. Qed.

(** A failed sub-tile fetch never propagates. *)
Lemma fetch_or_blank_total (net : Network) (parent : Server) (fetch_z fetch_x fetch_y : Z) :
  0 <= tile_size (_config parent) ->
  fetch_or_blank net parent fetch_z fetch_x fetch_y
  = Ok (sub_tile net parent fetch_z fetch_x fetch_y).
Proof.
  intros Hedge. unfold fetch_or_blank, sub_tile.
  destruct (fetch_tile net parent fetch_z fetch_x fetch_y) as [tile|e]; cbn [bind].
  - reflexivity.
  - now apply Image_new_ok.
Qed.

Lemma sub_tile_width (net : Network) (parent : Server) (fetch_z fetch_x fetch_y : Z) :
  0 <= tile_size (_config parent) ->
  (forall tile, fetch_tile net parent fetch_z fetch_x fetch_y = Ok tile -> well_formed tile) ->
  0 <= width (sub_tile net parent fetch_z fetch_x fetch_y).
Proof.
  intros Hedge Hwf. unfold sub_tile.
  destruct (fetch_tile net parent fetch_z fetch_x fetch_y) as [tile|e].
  - destruct (Hwf tile eq_refl) as (Hw & _).
    destruct (negb (String.eqb (mode tile) "RGBA")); exact Hw.
  - exact Hedge.
Qed.

Lemma sub_tile_ok (net : Network) (parent : Server) (fetch_z fetch_x fetch_y : Z) :
  0 <= tile_size (_config parent) ->
  (forall tile, fetch_tile net parent fetch_z fetch_x fetch_y = Ok tile ->
                tile_ok (tile_size (_config parent)) tile) ->
  tile_ok (tile_size (_config parent)) (sub_tile net parent fetch_z fetch_x fetch_y).
Proof.
  intros Hedge Hok. unfold sub_tile.
  destruct (fetch_tile net parent fetch_z fetch_x fetch_y) as [tile|e].
  - destruct (negb (String.eqb (mode tile) "RGBA"));
      [apply tile_ok_convert|]; now apply Hok.
  - now apply tile_ok_blank.
Qed.

Lemma sub_tile_pixel (net : Network) (parent : Server) (fetch_z fetch_x fetch_y i j : Z) :
  0 <= i < tile_size (_config parent) -> 0 <= j < tile_size (_config parent) ->
  getpixel (sub_tile net parent fetch_z fetch_x fetch_y) i j
  = match fetch_tile net parent fetch_z fetch_x fetch_y with
    | Ok tile => getpixel tile i j
    | Raise _ => Some (0, 0, 0, 0)
    end.
Proof.
  intros Hi Hj. unfold sub_tile.
  destruct (fetch_tile net parent fetch_z fetch_x fetch_y) as [tile|e].
  - destruct (negb (String.eqb (mode tile) "RGBA")); reflexivity.
  - now apply getpixel_blank.
Qed.

Lemma range_cons (n : Z) : 0 < n -> exists rest, range 0 n = 0 :: rest.
Proof.
  intros Hn. unfold range. rewrite Z.sub_0_r.
  destruct (Z.to_nat n) as [|m] eqn:E; [lia|].
  cbn [seq map]. eexists. reflexivity.
Qed.

Lemma sub_tiles_at (net : Network) (parent : Server) (fetch_z x y scale dx dy : Z) :
  0 <= dx < scale -> 0 <= dy < scale ->
  tile_at (sub_tiles net parent fetch_z x y scale) dy dx
  = Some (sub_tile net parent fetch_z (x * scale + dx) (y * scale + dy)).
Proof.
  intros Hdx Hdy. unfold tile_at, sub_tiles.
  rewrite nth_error_map, (range_nth_error scale dy Hdy). cbn [option_map].
  rewrite nth_error_map, (range_nth_error scale dx Hdx). reflexivity.
Qed.

Lemma sub_tiles_shape (net : Network) (parent : Server) (fetch_z x y scale : Z) :
  0 < scale ->
  Z.of_nat (List.length (sub_tiles net parent fetch_z x y scale)) = scale
  /\ Z.of_nat (List.length (nth 0 (sub_tiles net parent fetch_z x y scale) [])) = scale
  /\ rectangular (sub_tiles net parent fetch_z x y scale) scale
  /\ exists rest_row rest,
      sub_tiles net parent fetch_z x y scale
      = (sub_tile net parent fetch_z (x * scale + 0) (y * scale + 0) :: rest_row) :: rest.
Proof.
  intros Hs. unfold sub_tiles.
  destruct (range_cons scale Hs) as [rest Hrange].
  pose proof (range_length scale) as Hlen.
  split; [rewrite length_map, Hlen; lia|].
  rewrite Hrange in Hlen |- *. cbn [List.length] in Hlen.
  split; [cbn [map nth List.length]; rewrite length_map; lia|].
  split.
  { apply Forall_forall. intros tiles_row Hin.
    apply in_map_iff in Hin. destruct Hin as (dy & <- & _).
    rewrite length_map. cbn [List.length]. lia. }
  cbn [map]. eexists _, _. reflexivity.
Qed.

Lemma resize_returns (p : Picture) (w h : Z) (resample : Filter) :
  1 <= w -> 1 <= h -> resize p (w, h) resample = Ok (Resized p (w, h) resample).
Proof.
  intros Hw Hh. unfold resize.
  destruct ((fst (size p) =? w) && (snd (size p) =? h)); [reflexivity|].
  destruct (Z.ltb_spec w 1); [lia|]. destruct (Z.ltb_spec h 1); [lia|]. reflexivity.
Qed.

Lemma resize_shape (p q : Picture) (target : Z * Z) (resample : Filter) :
  resize p target resample = Ok q -> q = Resized p target resample.
Proof.
  unfold resize. destruct target as [w h].
  destruct ((fst (size p) =? w) && (snd (size p) =? h)); [now intros [= <-]|].
  destruct ((w <? 1) || (h <? 1)); [discriminate | now intros [= <-]].
Qed.

(** With a positive effective supersample, [get_image] composes the grid of
    sub-tiles, resizes the composite to the tile size of the provider and
    asks the base class for the extent. *)
Lemma get_image_supersampled
      (GoogleTiles_get_image : UnifiedTileSource -> Tile -> result (Image * Extent * string))
      (net : Network) (source : UnifiedTileSource) (x y z : Z) :
  let parent := parent_instance source in
  let edge := tile_size (_config parent) in
  let level := actual_supersample source z in
  let scale := 2 ^ level in
  0 < supersample_level source -> z < zoom_ceiling parent -> 0 <= edge ->
  get_image GoogleTiles_get_image net source (x, y, z)
  = (combined_img <-
       combine_tiles (sub_tiles net parent (z + level) x y scale)
                     (width (sub_tile net parent (z + level) (x * scale + 0) (y * scale + 0))) ;;
     picture <- resize (Raster combined_img) (edge, edge) (resample_filter source) ;;
     '(extent, origin) <- extent_from_parent GoogleTiles_get_image source (x, y, z) ;;
     Ok (picture, extent, origin)).
Proof.
  intros parent edge level scale Hs Hz Hedge.
  assert (Hlevel : 0 < level) by (subst level; unfold actual_supersample; fold parent; lia).
  assert (Hscale : 0 < scale) by (subst scale; apply Z.pow_pos_nonneg; lia).
  unfold get_image. fold parent. fold (zoom_ceiling parent).
  destruct (Z.leb_spec (supersample_level source) 0) as [|_]; [lia|].
  assert (Hlv : (if z + supersample_level source >? zoom_ceiling parent
                 then zoom_ceiling parent - z else supersample_level source) = level).
  { subst level. unfold actual_supersample. fold parent.
    destruct (Z.gtb_spec (z + supersample_level source) (zoom_ceiling parent)); lia. }
  assert (Hfz : (if z + supersample_level source >? zoom_ceiling parent
                 then zoom_ceiling parent else z + supersample_level source) = z + level).
  { subst level. unfold actual_supersample. fold parent.
    destruct (Z.gtb_spec (z + supersample_level source) (zoom_ceiling parent)); lia. }
  rewrite Hlv, Hfz. fold scale.
  destruct (Z.leb_spec level 0) as [|_]; [lia|].
  rewrite (collect_map _
             (fun dy => map (fun dx => sub_tile net parent (z + level)
                                                (x * scale + dx) (y * scale + dy))
                            (range 0 scale))).
  2:{ intros dy _. apply collect_map. intros dx _. now apply fetch_or_blank_total. }
  cbn [bind]. fold (sub_tiles net parent (z + level) x y scale).
  destruct (sub_tiles_shape net parent (z + level) x y scale Hscale)
    as (_ & _ & _ & rest_row & rest & Hshape).
  rewrite Hshape. cbv beta iota.
  destruct (combine_tiles _ _) as [combined|e]; [|reflexivity].
  cbn [bind]. fold edge.
  destruct (resize _ _ _) as [picture|e]; [|reflexivity].
  reflexivity.
Qed.

(** The grid of sub-tiles of a tile always composes, and the composite is
    resized to the tile size of the provider. *)
Lemma get_image_composes
      (GoogleTiles_get_image : UnifiedTileSource -> Tile -> result (Image * Extent * string))
      (net : Network) (source : UnifiedTileSource) (x y z : Z) :
  let parent := parent_instance source in
  let edge := tile_size (_config parent) in
  let level := actual_supersample source z in
  let scale := 2 ^ level in
  let tiles := sub_tiles net parent (z + level) x y scale in
  let first := sub_tile net parent (z + level) (x * scale + 0) (y * scale + 0) in
  0 < supersample_level source -> z < zoom_ceiling parent -> 1 <= edge ->
  (forall dx dy tile,
      fetch_tile net parent (z + level) (x * scale + dx) (y * scale + dy) = Ok tile ->
      well_formed tile /\ 1 <= width tile) ->
  exists composite,
    combine_tiles tiles (width first) = Ok composite
    /\ get_image GoogleTiles_get_image net source (x, y, z)
       = ('(extent, origin) <- extent_from_parent GoogleTiles_get_image source (x, y, z) ;;
          Ok (Resized (Raster composite) (edge, edge) (resample_filter source), extent, origin))
    /\ ((forall dx dy tile,
            fetch_tile net parent (z + level) (x * scale + dx) (y * scale + dy) = Ok tile ->
            tile_ok edge tile) ->
        width composite = scale * edge /\ height composite = scale * edge
        /\ forall dx dy i j,
            0 <= dx < scale -> 0 <= dy < scale -> 0 <= i < edge -> 0 <= j < edge ->
            getpixel composite (dx * edge + i) (dy * edge + j)
            = match fetch_tile net parent (z + level) (x * scale + dx) (y * scale + dy) with
              | Ok tile => getpixel tile i j
              | Raise _ => Some (0, 0, 0, 0)
              end).
Proof.
  intros parent edge level scale tiles first Hs Hz Hedge Hwf.
  assert (Hedge0 : 0 <= edge) by lia.
  assert (Hlevel : 0 < level) by (subst level; unfold actual_supersample; fold parent; lia).
  assert (Hscale : 0 < scale) by (subst scale; apply Z.pow_pos_nonneg; lia).
  rewrite (get_image_supersampled GoogleTiles_get_image net source x y z Hs Hz Hedge0).
  fold parent edge level scale. fold tiles first.
  destruct (sub_tiles_shape net parent (z + level) x y scale Hscale)
    as (Hrows & Hcols & Hrect & _).
  fold tiles in Hrows, Hcols, Hrect.
  assert (Hfirst : 0 <= width first)
    by (apply sub_tile_width; [exact Hedge0 | intros tile Htile; apply (Hwf 0 0 tile Htile)]).
  destruct (combine_tiles_rectangular tiles (width first) Hfirst)
    as (composite & Hrun & _ & Hw & Hh & Hpix).
  { lia. } { lia. } { now rewrite Hcols. }
  exists composite. split; [exact Hrun|].
  rewrite Hrun. cbn [bind]. rewrite (resize_returns _ edge edge _ Hedge Hedge). cbn [bind].
  split; [reflexivity|].
  intros Hok.
  assert (Hfw : width first = edge).
  { subst first. now destruct (sub_tile_ok net parent (z + level) (x * scale + 0)
                                           (y * scale + 0) Hedge0 (Hok 0 0)) as (? & _). }
  rewrite Hfw, ?Hrows, ?Hcols in *.
  split; [exact Hw|]. split; [exact Hh|].
  intros dx dy i j Hdx Hdy Hi Hj.
  rewrite (Hpix ltac:(
             apply Forall_forall; intros tiles_row Hin; apply in_map_iff in Hin;
             destruct Hin as (dy' & <- & _); apply Forall_forall; intros t Hin;
             apply in_map_iff in Hin; destruct Hin as (dx' & <- & _);
             apply sub_tile_ok; [exact Hedge0 | apply Hok])
             dy dx (sub_tile net parent (z + level) (x * scale + dx) (y * scale + dy)) i j);
    try lia.
  - now apply sub_tile_pixel.
  - now apply sub_tiles_at.
Qed.

(** When the base class's [get_image] raises for the tile, the supersampled
    path does not return: the handler that should supply the extent raises
    [AttributeError], also when every sub-tile was fetched. *)
Lemma get_image_extent_handler_raises
      (GoogleTiles_get_image : UnifiedTileSource -> Tile -> result (Image * Extent * string))
      (net : Network) (source : UnifiedTileSource) (x y z : Z) (e : exn) :
  let parent := parent_instance source in
  let level := actual_supersample source z in
  0 < supersample_level source -> z < zoom_ceiling parent ->
  1 <= tile_size (_config parent) ->
  (forall dx dy tile,
      fetch_tile net parent (z + level) (x * 2 ^ level + dx) (y * 2 ^ level + dy) = Ok tile ->
      well_formed tile /\ 1 <= width tile) ->
  GoogleTiles_get_image source (x, y, z) = Raise e ->
  get_image GoogleTiles_get_image net source (x, y, z)
  = Raise (AttributeError
             "type object 'BaseTileServer' has no attribute '_calculate_tile_extent_web_mercator'").
Proof.
  intros parent level Hs Hz Hedge Hwf Hparent.
  destruct (get_image_composes GoogleTiles_get_image net source x y z Hs Hz Hedge Hwf)
    as (composite & _ & Hrun & _).
  rewrite Hrun. unfold extent_from_parent. rewrite Hparent. reflexivity.
Qed.




Lemma one_sub_tile_missing_fails :
  exists e, fetch_tile one_sub_tile_missing esri_terrain 1 1 1 = Raise e.
Proof. eexists. reflexivity. Qed.



(** On a network that cannot be reached, below the zoom ceiling: the four
    sub-tiles are replaced by blank tiles and composed, the base class
    fails to give the extent, and the call raises [AttributeError]. *)
Example get_image_offline_raises :
  get_image (answering_parent offline) offline
            (get_cartopy_source esri_terrain 1 "lanczos") (0, 0, 0)
  = Raise (AttributeError
             "type object 'BaseTileServer' has no attribute '_calculate_tile_extent_web_mercator'").
Proof.
  apply (get_image_extent_handler_raises (answering_parent offline) offline
           (get_cartopy_source esri_terrain 1 "lanczos") 0 0 0 ConnectionError).
  - reflexivity.
  - reflexivity.
  - cbn. lia.
  - intros dx dy tile H. unfold fetch_tile in H.
    destruct (_build_tile_url _ _ _ _); discriminate H.
  - reflexivity.
Qed.

(** ** Tile coordinate math *)

Section Mercator.

Local Open Scope R_scope.

(** *** Numeric bounds *)

Lemma PI_bounds : 31415/10000 < PI < 3143/1000.
Proof.
  pose proof (PI_2_3_7_ineq 1) as [Hlo Hhi].
  unfold sum_f_R0, tg_alt, PI_2_3_7_tg, Ratan_seq in Hlo, Hhi.
  simpl in Hlo, Hhi. lra.
Qed.

Lemma exp_half_lb (y b c : R) : 0 <= b -> c <= b * b -> b <= exp (y / 2) -> c <= exp y.
Proof.
  intros Hb Hc Hy. replace y with (y / 2 + y / 2) by lra. rewrite exp_plus. nra.
Qed.

Lemma exp_31415_lb : 2311/100 < exp (31415/10000).
Proof.
  apply Rlt_le_trans with (23110634011/1000000000); [lra|].
  apply (exp_half_lb _ (4807352079/1000000000)); [lra|lra|].
  apply (exp_half_lb _ (2192567463/1000000000)); [lra|lra|].
  apply (exp_half_lb _ (148073207/100000000)); [lra|lra|].
  apply (exp_half_lb _ (304213337/250000000)); [lra|lra|].
  apply (exp_half_lb _ (27577769/25000000)); [lra|lra|].
  apply (exp_half_lb _ (525145399/500000000)); [lra|lra|].
  apply (exp_half_lb _ (512418481/500000000)); [lra|lra|].
  apply (exp_half_lb _ (202468463/200000000)); [lra|lra|].
  apply (exp_half_lb _ (1006152233/1000000000)); [lra|lra|].
  apply (exp_half_lb _ (5015357/5000000)); [lra|lra|].
  apply (exp_half_lb _ (1001534523/1000000000)); [lra|lra|].
  apply (exp_half_lb _ (8198283/8192000)); [lra|lra|].
  match goal with |- _ <= exp ?e => pose proof (exp_ineq1_le e) end. lra.
Qed.

Lemma sin_PI_72_lb : 436/10000 < sin (PI / 72).
Proof.
  pose proof PI_bounds as [Hlo Hhi].
  set (a := PI / 72).
  assert (Ha : 4363/100000 < a < 4366/100000) by (subst a; lra).
  destruct (SIN a) as [Hlb _]; [lra | lra |].
  apply Rlt_le_trans with (2 := Hlb).
  unfold sin_lb, sin_approx, sum_f_R0, sin_term. simpl.
  assert (H2 : 0 < a * a < 25/10000) by nra.
  assert (H3 : 0 < a * (a * a) < 125/1000000) by nra.
  assert (H5 : 0 < a * (a * (a * (a * a)))) by nra.
  assert (H7 : a * (a * (a * (a * (a * (a * a))))) <= a * (a * (a * (a * a)))) by nra.
  lra.
Qed.

(** *** The Mercator ordinate *)

Lemma sqrt2_neq_0 : sqrt 2 <> 0.
Proof. pose proof (sqrt_lt_R0 2). lra. Qed.

Lemma quarter_plus_half_range (phi : R) :
  - (PI / 2) < phi < PI / 2 -> 0 < PI / 4 + phi / 2 < PI / 2.
Proof. intros H. pose proof PI_RGT_0. lra. Qed.

(** [tan phi + 1 / cos phi = tan (PI / 4 + phi / 2)] between the poles. *)
Lemma sec_plus_tan (phi : R) :
  - (PI / 2) < phi < PI / 2 -> tan phi + 1 / cos phi = tan (PI / 4 + phi / 2).
Proof.
  intros Hphi.
  pose proof (quarter_plus_half_range phi Hphi) as Ha.
  pose proof (cos_gt_0 (PI / 4 + phi / 2) ltac:(lra) ltac:(lra)) as Hcos.
  pose proof (sin_gt_0 (PI / 4 + phi / 2) ltac:(lra) ltac:(lra)) as Hsin.
  pose proof (cos_gt_0 phi ltac:(lra) ltac:(lra)) as Hcphi.
  pose proof sqrt2_neq_0 as Hsq. pose proof (sqrt_lt_R0 2 ltac:(lra)) as Hsq'.
  unfold tan. rewrite sin_plus, cos_plus in *. rewrite sin_PI4, cos_PI4 in *.
  replace phi with (2 * (phi / 2)) at 1 2 3 by lra.
  replace phi with (2 * (phi / 2)) in Hcphi by lra.
  rewrite sin_2a, cos_2a in *.
  set (s := sin (phi / 2)) in *. set (c := cos (phi / 2)) in *.
  assert (Hsc : s * s + c * c = 1) by (apply (sin2_cos2 (phi / 2))).
  assert (Hd : 0 < c - s).
  { apply Rmult_lt_reg_l with (1 / sqrt 2); [apply Rdiv_lt_0_compat; lra|]. lra. }
  assert (Hp : 0 < c + s).
  { apply Rmult_lt_reg_l with (1 / sqrt 2); [apply Rdiv_lt_0_compat; lra|]. lra. }
  replace (1 / (c * c - s * s)) with ((s * s + c * c) / (c * c - s * s))
    by (now rewrite Hsc).
  field. repeat split; try lra; nra.
Qed.

Lemma sec_plus_tan_pos (phi : R) :
  - (PI / 2) < phi < PI / 2 -> 0 < tan phi + 1 / cos phi.
Proof.
  intros Hphi. rewrite sec_plus_tan by assumption.
  apply tan_gt_0; apply quarter_plus_half_range; assumption.
Qed.

Lemma exp_PI_lb : 2311 / 100 < exp PI.
Proof.
  apply Rlt_trans with (1 := exp_31415_lb).
  apply exp_increasing. apply PI_bounds.
Qed.

Lemma tan_PI_72_lb : 436 / 10000 < tan (PI / 72).
Proof.
  pose proof PI_bounds as [Hlo Hhi].
  pose proof sin_PI_72_lb as Hs.
  pose proof (cos_gt_0 (PI / 72) ltac:(lra) ltac:(lra)) as Hc.
  pose proof (COS_bound (PI / 72)) as [_ Hc1].
  unfold tan. apply Rlt_le_trans with (1 := Hs).
  apply Rmult_le_reg_r with (cos (PI / 72)); [assumption|].
  unfold Rdiv. rewrite Rmult_assoc, Rinv_l by lra. nra.
Qed.

Lemma tan_35_PI_72_ub : tan (35 * PI / 72) < 2294 / 100.
Proof.
  pose proof PI_bounds as [Hlo Hhi].
  pose proof sin_PI_72_lb as Hs.
  pose proof (COS_bound (PI / 72)) as [_ Hc1].
  replace (35 * PI / 72) with (PI / 2 - PI / 72) by lra.
  unfold tan. rewrite sin_shift, cos_shift.
  apply Rmult_lt_reg_r with (sin (PI / 72)); [lra|].
  unfold Rdiv at 1. rewrite Rmult_assoc, Rinv_l by lra. nra.
Qed.

(** Between 85 degrees south and 85 degrees north the Mercator ordinate
    [ln (tan phi + 1 / cos phi)] lies strictly between [- PI] and [PI]. *)
Lemma mercator_below_PI (phi : R) :
  - (85 * (PI / 180)) < phi < 85 * (PI / 180) ->
  - PI < ln (tan phi + 1 / cos phi) < PI.
Proof.
  intros Hphi. pose proof PI_bounds as [Hlo Hhi].
  assert (Hr : - (PI / 2) < phi < PI / 2) by lra.
  pose proof (sec_plus_tan_pos phi Hr) as Hpos.
  rewrite sec_plus_tan in * by assumption.
  assert (Hlow : 436 / 10000 < tan (PI / 4 + phi / 2)).
  { apply Rlt_trans with (1 := tan_PI_72_lb). apply tan_increasing; lra. }
  assert (Hup : tan (PI / 4 + phi / 2) < 2294 / 100).
  { apply Rlt_trans with (2 := tan_35_PI_72_ub). apply tan_increasing; lra. }
  pose proof exp_PI_lb as He. pose proof (exp_pos PI) as Hep.
  split.
  - rewrite <- (ln_exp (- PI)). apply ln_increasing; [apply exp_pos|].
    rewrite exp_Ropp. apply Rlt_trans with (2 := Hlow).
    apply Rmult_lt_reg_r with (exp PI); [assumption|].
    rewrite Rinv_l by lra. nra.
  - rewrite <- (ln_exp PI) at 2. apply ln_increasing; [assumption|]. lra.
Qed.

(** *** Truncation *)

Lemma int_spec (v : R) :
  (0 <= v -> IZR (int v) <= v < IZR (int v) + 1)
  /\ (v < 0 -> IZR (int v) - 1 < v <= IZR (int v)).
Proof.
  unfold int. destruct (Rle_dec 0 v) as [Hv|Hv]; split; intros H; try lra.
  - pose proof (base_Int_part v). lra.
  - pose proof (base_Int_part (- v)). rewrite opp_IZR. lra.
Qed.

Lemma int_IZR (k : Z) : int (IZR k) = k.
Proof.
  destruct (int_spec (IZR k)) as [Hpos Hneg].
  destruct (Rle_dec 0 (IZR k)) as [Hk|Hk].
  - destruct (Hpos Hk) as [H1 H2].
    apply le_IZR in H1. rewrite <- plus_IZR in H2. apply lt_IZR in H2. lia.
  - destruct (Hneg ltac:(lra)) as [H1 H2].
    apply le_IZR in H2. rewrite <- minus_IZR in H1. apply lt_IZR in H1. lia.
Qed.

Lemma int_bounds (v : R) (n : Z) : 0 <= v < IZR n -> (0 <= int v < n)%Z.
Proof.
  intros [H0 Hn]. destruct (proj1 (int_spec v) H0) as [H1 H2]. split.
  - assert (IZR (-1) < IZR (int v)) by lra. apply lt_IZR in H. lia.
  - apply lt_IZR. lra.
Qed.

Lemma int_le (a b : R) : a <= b -> (int a <= int b)%Z.
Proof.
  intros Hab.
  destruct (int_spec a) as [Hap Han], (int_spec b) as [Hbp Hbn].
  destruct (Rle_dec 0 a) as [Ha|Ha], (Rle_dec 0 b) as [Hb|Hb]; try lra.
  - specialize (Hap Ha). specialize (Hbp Hb).
    assert (H : IZR (int a) < IZR (int b + 1)) by (rewrite plus_IZR; lra).
    apply lt_IZR in H. lia.
  - specialize (Han ltac:(lra)). specialize (Hbp Hb).
    assert (H1 : IZR (int a) < IZR 1) by lra.
    assert (H2 : IZR (-1) < IZR (int b)) by lra.
    apply lt_IZR in H1, H2. lia.
  - specialize (Han ltac:(lra)). specialize (Hbn ltac:(lra)).
    assert (H : IZR (int a) < IZR (int b + 1)) by (rewrite plus_IZR; lra).
    apply lt_IZR in H. lia.
Qed.

Lemma powerRZ_2_IZR (zoom : Z) : (0 <= zoom)%Z -> powerRZ 2 zoom = IZR (2 ^ zoom).
Proof.
  intros Hz. rewrite <- (Z2Nat.id zoom Hz) at 1.
  rewrite <- pow_powerRZ, pow_IZR, Z2Nat.id by assumption. reflexivity.
Qed.

(** *** [lonlat_to_tile] *)

Lemma float_pow_2_ok (zoom : Z) : (zoom < 1024)%Z -> float_pow_2 zoom = Ok (powerRZ 2 zoom).
Proof. intros H. unfold float_pow_2. destruct (Z.leb_spec 1024 zoom); [lia | reflexivity]. Qed.

(** [2.0 ** zoom] overflows from zoom 1024 on. *)
Lemma lonlat_to_tile_overflow (lon lat : R) (zoom : Z) :
  (1024 <= zoom)%Z -> lonlat_to_tile lon lat zoom = Raise OverflowError.
Proof.
  intros H. unfold lonlat_to_tile, float_pow_2.
  destruct (Z.leb_spec 1024 zoom); [reflexivity | lia].
Qed.

(** When [lonlat_to_tile] returns, the zoom is below 1024 and the column is
    the truncated share of the longitude in the grid, whatever the
    latitude. *)
Lemma lonlat_to_tile_column (lon lat : R) (zoom : Z) (x y : Z) :
  lonlat_to_tile lon lat zoom = Ok (x, y) ->
  (zoom < 1024)%Z /\ x = int ((lon + 180) / 360 * powerRZ 2 zoom).
Proof.
  unfold lonlat_to_tile, float_pow_2.
  destruct (Z.leb_spec 1024 zoom); cbn [bind]; [discriminate|].
  destruct (truediv _ _) as [sec|e]; cbn [bind]; [|discriminate].
  destruct (math_log _) as [merc|e]; cbn [bind]; [|discriminate].
  intros [= <- _]. split; [assumption | reflexivity].
Qed.

Lemma lonlat_to_tile_ok (lon lat : R) (zoom : Z) :
  (zoom < 1024)%Z ->
  cos (math_radians lat) <> 0 ->
  0 < tan (math_radians lat) + 1 / cos (math_radians lat) ->
  lonlat_to_tile lon lat zoom
  = Ok (int ((lon + 180) / 360 * powerRZ 2 zoom),
        int ((1 - ln (tan (math_radians lat) + 1 / cos (math_radians lat)) / PI) / 2
             * powerRZ 2 zoom)).
Proof.
  intros Hz Hc Ht. unfold lonlat_to_tile, truediv, math_log.
  rewrite (float_pow_2_ok zoom Hz). cbn [bind].
  destruct (Req_dec_T (cos (math_radians lat)) 0) as [E|_]; [contradiction|]. cbn [bind].
  destruct (Rlt_dec 0 (tan (math_radians lat) + 1 / cos (math_radians lat)))
    as [_|N]; [|contradiction].
  reflexivity.
Qed.

Lemma radians_between_poles (lat : R) :
  -90 < lat < 90 -> - (PI / 2) < math_radians lat < PI / 2.
Proof. intros H. pose proof PI_RGT_0. unfold math_radians. nra. Qed.

Lemma lonlat_to_tile_between_poles (lon lat : R) (zoom : Z) :
  (zoom < 1024)%Z ->
  -90 < lat < 90 ->
  lonlat_to_tile lon lat zoom
  = Ok (int ((lon + 180) / 360 * powerRZ 2 zoom),
        int ((1 - ln (tan (math_radians lat) + 1 / cos (math_radians lat)) / PI) / 2
             * powerRZ 2 zoom)).
Proof.
  intros Hz Hlat. pose proof (radians_between_poles lat Hlat) as Hr.
  apply lonlat_to_tile_ok.
  - exact Hz.
  - pose proof (cos_gt_0 _ (proj1 Hr) (proj2 Hr)). lra.
  - now apply sec_plus_tan_pos.
Qed.

Lemma lonlat_to_tile_equator (lon : R) (zoom : Z) :
  (zoom < 1024)%Z ->
  lonlat_to_tile lon 0 zoom
  = Ok (int ((lon + 180) / 360 * powerRZ 2 zoom), int (1 / 2 * powerRZ 2 zoom)).
Proof.
  intros Hz. rewrite lonlat_to_tile_between_poles by first [exact Hz | lra].
  unfold math_radians. rewrite Rmult_0_l, tan_0, cos_0.
  replace (0 + 1 / 1) with 1 by lra. rewrite ln_1.
  do 3 f_equal. unfold Rdiv. rewrite Rmult_0_l. lra.
Qed.

Lemma int_half : int (1 / 2) = 0%Z.
Proof. pose proof (int_bounds (1 / 2) 1 ltac:(lra)). lia. Qed.

Lemma int_unique (v : R) (k : Z) : 0 <= v -> IZR k <= v < IZR k + 1 -> int v = k.
Proof.
  intros H0 [H1 H2]. destruct (proj1 (int_spec v) H0) as [H3 H4].
  assert (Ha : IZR k < IZR (int v + 1)) by (rewrite plus_IZR; lra).
  assert (Hb : IZR (int v) < IZR (k + 1)) by (rewrite plus_IZR; lra).
  apply lt_IZR in Ha, Hb. lia.
Qed.

Lemma sqrt2_bounds : 1 < sqrt 2 < 2.
Proof.
  pose proof (sqrt_lt_R0 2 ltac:(lra)) as Hp.
  pose proof (sqrt_sqrt 2 ltac:(lra)) as Hs. split; nra.
Qed.

Lemma ln_1_plus_sqrt2 : 0 < ln (1 + sqrt 2) < PI.
Proof.
  pose proof sqrt2_bounds as [Hlo Hhi]. split.
  - rewrite <- ln_1. apply ln_increasing; lra.
  - rewrite <- (ln_exp PI). apply ln_increasing; [lra|].
    pose proof exp_PI_lb. lra.
Qed.

(** Latitude 45: the ordinate is [ln (1 + sqrt 2)]. *)
Lemma lonlat_to_tile_45 (lon : R) (zoom : Z) :
  (zoom < 1024)%Z ->
  lonlat_to_tile lon 45 zoom
  = Ok (int ((lon + 180) / 360 * powerRZ 2 zoom),
        int ((1 - ln (1 + sqrt 2) / PI) / 2 * powerRZ 2 zoom)).
Proof.
  intros Hz. rewrite lonlat_to_tile_between_poles by first [exact Hz | lra].
  replace (math_radians 45) with (PI / 4) by (unfold math_radians; lra).
  rewrite tan_PI4, cos_PI4.
  replace (1 / (1 / sqrt 2)) with (sqrt 2) by (field; apply sqrt2_neq_0).
  reflexivity.
Qed.

(** *** The tile grid *)

(** C4, as stated, fails at the antimeridian: longitude 180 on the equator
    at zoom 0 gives [x = 1], which is [2 ^ 0] and not below it (every
    operation of that computation is exact in binary64).  It also fails for
    the zoom levels from 1024 on, where [2.0 ** zoom] raises
    [OverflowError]. *)
Lemma lonlat_to_tile_antimeridian :
  -180 <= 180 <= 180 /\ -85 < 0 < 85 /\ (0 <= 0)%Z
  /\ lonlat_to_tile 180 0 0 = Ok (1, 0)%Z
  /\ ~ (0 <= 1 < 2 ^ 0)%Z
  /\ lonlat_to_tile 0 0 1024 = Raise OverflowError.
Proof.
  split; [lra|]. split; [lra|]. split; [lia|].
  split; [|split; [lia | apply lonlat_to_tile_overflow; lia]].
  rewrite lonlat_to_tile_equator by lia. cbn [powerRZ].
  replace ((180 + 180) / 360 * 1) with (IZR 1) by lra.
  replace (1 / 2 * 1) with (1 / 2) by lra.
  now rewrite int_IZR, int_half.
Qed.

(** C4, amended. For a longitude in [[-180, 180]], a latitude strictly
    between -85 and 85 degrees and a zoom level from 0 to 1023,
    [lonlat_to_tile] returns [(x, y)] with [0 <= y < 2 ^ zoom] and
    [0 <= x <= 2 ^ zoom]: the column is not clamped, and [x = 2 ^ zoom],
    one past the last column, is what longitude 180 gives.  The column is
    below [2 ^ zoom] for every longitude up to 179.999999.  (Between
    179.999999 and 180 nothing more than [x <= 2 ^ zoom] is stated: there
    the rounding of [lon + 180.0] decides.) *)
Theorem lonlat_to_tile_in_grid (lon lat : R) (zoom : Z) :
  -180 <= lon <= 180 -> -85 < lat < 85 -> (0 <= zoom <= 1023)%Z ->
  exists x y,
    lonlat_to_tile lon lat zoom = Ok (x, y)
    /\ (0 <= y < 2 ^ zoom)%Z
    /\ (0 <= x <= 2 ^ zoom)%Z
    /\ (lon <= 179999999 / 1000000 -> (x < 2 ^ zoom)%Z)
    /\ (lon = 180 -> x = (2 ^ zoom)%Z).
Proof.
  intros Hlon Hlat Hzoom. pose proof PI_RGT_0 as Hpi.
  rewrite lonlat_to_tile_between_poles by first [lia | lra].
  rewrite (powerRZ_2_IZR zoom (proj1 Hzoom)).
  assert (Hn : 1 <= IZR (2 ^ zoom)).
  { apply IZR_le. pose proof (Z.pow_pos_nonneg 2 zoom). lia. }
  eexists _, _. split; [reflexivity|].
  set (n := IZR (2 ^ zoom)) in *.
  split; [|split; [|split]].
  - (* the row *)
    assert (Hphi : - (85 * (PI / 180)) < math_radians lat < 85 * (PI / 180))
      by (unfold math_radians; nra).
    pose proof (mercator_below_PI _ Hphi) as Hm.
    set (m := ln (tan (math_radians lat) + 1 / cos (math_radians lat))) in *.
    assert (Hq : -1 < m / PI < 1).
    { assert (m = m / PI * PI) by (field; lra). nra. }
    apply int_bounds. fold n. nra.
  - (* the column *)
    assert (H0 : 0 <= (lon + 180) / 360 <= 1) by lra.
    split.
    + apply (int_bounds ((lon + 180) / 360 * n) (2 ^ zoom + 1)).
      rewrite plus_IZR. fold n. nra.
    + rewrite <- (int_IZR (2 ^ zoom)). apply int_le. fold n. nra.
  - intros Hlt. apply int_bounds. fold n.
    assert (H0 : 0 <= (lon + 180) / 360 < 1) by lra. nra.
  - intros ->. replace ((180 + 180) / 360 * n) with n by lra.
    apply int_IZR.
Qed.

Lemma lonlat_to_tile_in_grid_witness :
  exists x y,
    lonlat_to_tile 0 0 1 = Ok (x, y)
    /\ (0 <= y < 2 ^ 1)%Z /\ (0 <= x <= 2 ^ 1)%Z
    /\ (0 <= 179999999 / 1000000 -> (x < 2 ^ 1)%Z) /\ (0 = 180 -> x = (2 ^ 1)%Z).
Proof.
  apply (lonlat_to_tile_in_grid 0 0 1); [lra | lra | lia].
Defined.

(** [int ((lon + 180) / 360 * n)] grows with the longitude. *)
Lemma x_tile_monotone (lon1 lon2 : R) (zoom : Z) :
  lon1 <= lon2 ->
  (int ((lon1 + 180) / 360 * powerRZ 2 zoom) <= int ((lon2 + 180) / 360 * powerRZ 2 zoom))%Z.
Proof.
  intros H. apply int_le.
  pose proof (powerRZ_lt 2 zoom ltac:(lra)). nra.
Qed.

(** The extent [[0, 1, 0, 45]] at zooms 0 and 1. *)
Lemma extent_0_1_0_45_zoom_0 : extent_to_tile_indices (0, 1, 0, 45) 0 = Ok (0, 0, 0, 0)%Z.
Proof.
  pose proof ln_1_plus_sqrt2 as [Hl0 Hl1]. pose proof PI_RGT_0 as Hpi.
  assert (Hq : 0 < ln (1 + sqrt 2) / PI < 1).
  { assert (ln (1 + sqrt 2) = ln (1 + sqrt 2) / PI * PI) by (field; lra). nra. }
  unfold extent_to_tile_indices.
  rewrite lonlat_to_tile_equator, lonlat_to_tile_45 by lia. cbn [bind powerRZ].
  rewrite (int_unique ((0 + 180) / 360 * 1) 0) by lra.
  rewrite (int_unique (1 / 2 * 1) 0) by lra.
  rewrite (int_unique ((1 + 180) / 360 * 1) 0) by lra.
  rewrite (int_unique ((1 - ln (1 + sqrt 2) / PI) / 2 * 1) 0) by lra.
  reflexivity.
Qed.

Lemma extent_0_1_0_45_zoom_1 : extent_to_tile_indices (0, 1, 0, 45) 1 = Ok (1, 0, 1, 1)%Z.
Proof.
  pose proof ln_1_plus_sqrt2 as [Hl0 Hl1]. pose proof PI_RGT_0 as Hpi.
  assert (Hq : 0 < ln (1 + sqrt 2) / PI < 1).
  { assert (ln (1 + sqrt 2) = ln (1 + sqrt 2) / PI * PI) by (field; lra). nra. }
  unfold extent_to_tile_indices.
  rewrite lonlat_to_tile_equator, lonlat_to_tile_45 by lia. cbn [bind powerRZ].
  change (Pos.to_nat 1) with 1%nat. rewrite pow_1.
  rewrite (int_unique ((0 + 180) / 360 * 2) 1) by lra.
  rewrite (int_unique (1 / 2 * 2) 1) by lra.
  rewrite (int_unique ((1 + 180) / 360 * 2) 1) by lra.
  rewrite (int_unique ((1 - ln (1 + sqrt 2) / PI) / 2 * 2) 0) by lra.
  reflexivity.
Qed.

End Mercator.

(** ** Fetching an extent *)

Lemma range_In (lo hi k : Z) : In k (range lo hi) -> lo <= k < hi.
Proof.
  unfold range. intros H. apply in_map_iff in H. destruct H as (i & <- & Hi).
  apply in_seq in Hi. lia.
Qed.

Lemma collect_ok {A B : Type} (P : B -> Prop) (f : A -> result B) (xs : list A) :
  (forall x, In x xs -> exists b, f x = Ok b /\ P b) ->
  exists bs, collect f xs = Ok bs /\ List.length bs = List.length xs /\ Forall P bs.
Proof.
  induction xs as [|x xs IH]; intros H.
  - exists []. repeat split. constructor.
  - destruct (H x (or_introl eq_refl)) as (b & Hb & Pb).
    destruct IH as (bs & Hbs & Hlen & HP); [intros; apply H; now right|].
    exists (b :: bs). cbn [collect]. rewrite Hb. cbn [bind]. rewrite Hbs. cbn [bind].
    repeat split; [cbn; now rewrite Hlen | now constructor].
Qed.

(** A rectangular grid and a non-negative edge always compose. *)
Lemma combine_tiles_total (tiles : list (list Image)) (tile_size : Z) :
  0 <= tile_size ->
  rectangular tiles (Z.of_nat (List.length (nth 0 tiles []))) ->
  exists img, combine_tiles tiles tile_size = Ok img.
Proof.
  intros Hts Hrect.
  destruct (Z.eq_dec (Z.of_nat (List.length tiles)) 0) as [Hr|Hr];
    [eexists; apply combine_tiles_degenerate; [exact Hts | now left]|].
  destruct (Z.eq_dec (Z.of_nat (List.length (nth 0 tiles []))) 0) as [Hc|Hc];
    [eexists; apply combine_tiles_degenerate; [exact Hts | now right]|].
  destruct (combine_tiles_size tiles tile_size Hts) as (img & Himg & _);
    [lia | lia | exact Hrect |].
  now exists img.
Qed.

(** With a positive effective supersample the composite is resized with
    Lanczos to the size of the tile range at the requested zoom, and the
    smoothing step is skipped. *)
Lemma fetch_tiles_for_extent_supersampled
      (net : Network) (self : Server) (extent : Extent)
      (zoom_level supersample : Z) (resample : bool) (resample_method : string)
      (fetch_zoom s' : Z) (notices : list warning) :
  _validate_zoom_level self zoom_level supersample = Ok ((fetch_zoom, s'), notices) ->
  0 < s' ->
  fetch_tiles_for_extent net self extent zoom_level supersample resample resample_method
  = ('(x_min, y_min, x_max, y_max) <- extent_to_tile_indices extent fetch_zoom ;;
     tiles <- collect
                (fun y => collect (fun x => fetch_tile net self fetch_zoom x y)
                                  (range x_min (x_max + 1)))
                (range y_min (y_max + 1)) ;;
     combined_img <-
       combine_tiles tiles
                     match tiles with
                     | (tile :: _) :: _ => width tile
                     | _ => tile_size (_config self)
                     end ;;
     '(original_x_min, original_y_min, original_x_max, original_y_max) <-
       extent_to_tile_indices extent zoom_level ;;
     picture <- resize (Raster combined_img)
                       ((original_x_max - original_x_min + 1) * tile_size (_config self),
                        (original_y_max - original_y_min + 1) * tile_size (_config self))
                       LANCZOS ;;
     Ok (picture, notices)).
Proof.
  intros Hval Hs. unfold fetch_tiles_for_extent. rewrite Hval. cbn [bind].
  destruct (extent_to_tile_indices extent fetch_zoom) as [[[[a b] c] d]|e];
    [cbn [bind]|reflexivity].
  destruct (collect _ _) as [tiles|e]; [cbn [bind]|reflexivity].
  destruct (combine_tiles _ _) as [combined|e]; [cbn [bind]|reflexivity].
  destruct (Z.gtb_spec s' 0) as [_|]; [|lia].
  destruct (extent_to_tile_indices extent zoom_level) as [[[[xa ya] xb] yb]|e];
    [cbn [bind]|reflexivity].
  change (_get_resample_filter "lanczos") with LANCZOS.
  destruct (resize _ _ LANCZOS) as [picture|e]; [cbn [bind]|reflexivity].
  destruct (Z.eqb_spec s' 0) as [|_]; [lia|].
  rewrite andb_false_r. reflexivity.
Qed.

(** Every picture returned with a positive effective supersample is the
    composite of the tiles fetched at the fetch zoom, resized with Lanczos
    to the size of the requested range. *)
Lemma supersampled_picture_shape
      (net : Network) (self : Server) (extent : Extent)
      (zoom_level supersample : Z) (resample : bool) (resample_method : string)
      (fetch_zoom s' : Z) (notices : list warning) :
  _validate_zoom_level self zoom_level supersample = Ok ((fetch_zoom, s'), notices) ->
  0 < s' ->
  forall picture notices',
    fetch_tiles_for_extent net self extent zoom_level supersample resample resample_method
    = Ok (picture, notices') ->
    exists fx_min fy_min fx_max fy_max tiles composite x_min y_min x_max y_max,
      extent_to_tile_indices extent fetch_zoom = Ok (fx_min, fy_min, fx_max, fy_max)
      /\ collect (fun y => collect (fun x => fetch_tile net self fetch_zoom x y)
                                   (range fx_min (fx_max + 1)))
                 (range fy_min (fy_max + 1))
         = Ok tiles
      /\ combine_tiles tiles
                       match tiles with
                       | (tile :: _) :: _ => width tile
                       | _ => tile_size (_config self)
                       end
         = Ok composite
      /\ extent_to_tile_indices extent zoom_level = Ok (x_min, y_min, x_max, y_max)
      /\ picture
         = Resized (Raster composite)
                   ((x_max - x_min + 1) * tile_size (_config self),
                    (y_max - y_min + 1) * tile_size (_config self))
                   LANCZOS
      /\ size picture = ((x_max - x_min + 1) * tile_size (_config self),
                         (y_max - y_min + 1) * tile_size (_config self))
      /\ notices' = notices.
Proof.
  intros Hval Hs picture notices'.
  rewrite (fetch_tiles_for_extent_supersampled net self extent zoom_level supersample
             resample resample_method fetch_zoom s' notices Hval Hs).
  intros Hrun.
  destruct (extent_to_tile_indices extent fetch_zoom) as [[[[a b] c] d]|e];
    [cbn [bind] in Hrun|discriminate].
  destruct (collect _ _) as [tiles|e] eqn:Hcollect; [cbn [bind] in Hrun|discriminate].
  destruct (combine_tiles _ _) as [combined|e] eqn:Hcompose;
    [cbn [bind] in Hrun|discriminate].
  destruct (extent_to_tile_indices extent zoom_level) as [[[[xa ya] xb] yb]|e];
    [cbn [bind] in Hrun|discriminate].
  destruct (resize _ _ _) as [resized|e] eqn:Hresize; [cbn [bind] in Hrun|discriminate].
  injection Hrun as <- <-. apply resize_shape in Hresize. subst resized.
  exists a, b, c, d, tiles, combined, xa, ya, xb, yb. repeat split; assumption.
Qed.

(** The call returns when both tile ranges are defined, the requested
    range is not empty, the tile size is positive and every tile of the
    fetch range is fetched (as an image that is not empty). *)
Lemma supersampled_fetch_returns
      (net : Network) (self : Server) (extent : Extent)
      (zoom_level supersample : Z) (resample : bool) (resample_method : string)
      (fetch_zoom s' : Z) (notices : list warning) :
  _validate_zoom_level self zoom_level supersample = Ok ((fetch_zoom, s'), notices) ->
  0 < s' ->
  forall fx_min fy_min fx_max fy_max x_min y_min x_max y_max,
    extent_to_tile_indices extent fetch_zoom = Ok (fx_min, fy_min, fx_max, fy_max) ->
    extent_to_tile_indices extent zoom_level = Ok (x_min, y_min, x_max, y_max) ->
    x_min <= x_max -> y_min <= y_max ->
    1 <= tile_size (_config self) ->
    (forall x y, fx_min <= x <= fx_max -> fy_min <= y <= fy_max ->
                 exists tile, fetch_tile net self fetch_zoom x y = Ok tile
                              /\ 1 <= width tile) ->
    exists tiles composite,
      collect (fun y => collect (fun x => fetch_tile net self fetch_zoom x y)
                                (range fx_min (fx_max + 1)))
              (range fy_min (fy_max + 1))
      = Ok tiles
      /\ combine_tiles tiles
                       match tiles with
                       | (tile :: _) :: _ => width tile
                       | _ => tile_size (_config self)
                       end
         = Ok composite
      /\ fetch_tiles_for_extent net self extent zoom_level supersample resample
                                resample_method
         = Ok (Resized (Raster composite)
                       ((x_max - x_min + 1) * tile_size (_config self),
                        (y_max - y_min + 1) * tile_size (_config self))
                       LANCZOS,
               notices).
Proof.
  intros Hval Hs.
  rewrite (fetch_tiles_for_extent_supersampled net self extent zoom_level supersample
             resample resample_method fetch_zoom s' notices Hval Hs).
  intros fx_min fy_min fx_max fy_max x_min y_min x_max y_max Hfetch Hreq Hx Hy Hedge Htiles.
  rewrite Hfetch, Hreq. cbn [bind].
  set (cols := List.length (range fx_min (fx_max + 1))).
  destruct (collect_ok
              (fun tiles_row => List.length tiles_row = cols
                                /\ Forall (fun tile => 0 <= width tile) tiles_row)
              (fun y => collect (fun x => fetch_tile net self fetch_zoom x y)
                                (range fx_min (fx_max + 1)))
              (range fy_min (fy_max + 1))) as (tiles & Hcollect & _ & Hrows).
  { intros y Hyin. apply range_In in Hyin.
    destruct (collect_ok (fun tile => 0 <= width tile)
                         (fun x => fetch_tile net self fetch_zoom x y)
                         (range fx_min (fx_max + 1))) as (tiles_row & Hrow & Hlen & Hw).
    { intros x Hxin. apply range_In in Hxin.
      destruct (Htiles x y) as (tile & Htile & Hwide); [lia | lia |].
      exists tile. split; [exact Htile | lia]. }
    exists tiles_row. auto. }
  rewrite Hcollect. cbn [bind].
  destruct (combine_tiles_total tiles
              match tiles with
              | (tile :: _) :: _ => width tile
              | _ => tile_size (_config self)
              end) as (composite & Hcompose).
  - destruct tiles as [|[|tile tiles_row] tiles]; try lia.
    inversion Hrows as [|? ? [_ Hfirst] _]; subst.
    now inversion Hfirst.
  - apply Forall_forall. intros tiles_row Hin.
    pose proof (proj1 (Forall_forall _ _) Hrows _ Hin) as [Hlen _].
    destruct tiles as [|first tiles]; [contradiction|].
    inversion Hrows as [|? ? [Hfirst _] _]; subst. cbn [nth]. lia.
  - exists tiles, composite. split; [reflexivity|]. split; [exact Hcompose|].
    rewrite Hcompose. cbn [bind].
    rewrite resize_returns by nia. reflexivity.
Qed.

(** C8. When the effective supersample is positive, every picture that
    [fetch_tiles_for_extent] returns is the composite of the tiles fetched
    at the fetch zoom, resized with the Lanczos filter, whatever [resample]
    and [resample_method] are, to [(xMax - xMin + 1) * tile_size] by
    [(yMax - yMin + 1) * tile_size] for the tile range of the extent at the
    requested zoom, whatever the number of tiles fetched at the fetch zoom;
    and the call does return that picture when the tile ranges are defined,
    the requested range is not empty, the tile size is positive and every
    tile of the fetch range is fetched (as an image that is not empty). *)
Theorem fetch_tiles_for_extent_supersample_size
        (net : Network) (self : Server) (extent : Extent)
        (zoom_level supersample : Z) (resample : bool) (resample_method : string)
        (fetch_zoom s' : Z) (notices : list warning) :
  _validate_zoom_level self zoom_level supersample = Ok ((fetch_zoom, s'), notices) ->
  0 < s' ->
  (forall picture notices',
      fetch_tiles_for_extent net self extent zoom_level supersample resample resample_method
      = Ok (picture, notices') ->
      exists fx_min fy_min fx_max fy_max tiles composite x_min y_min x_max y_max,
        extent_to_tile_indices extent fetch_zoom = Ok (fx_min, fy_min, fx_max, fy_max)
        /\ collect (fun y => collect (fun x => fetch_tile net self fetch_zoom x y)
                                     (range fx_min (fx_max + 1)))
                   (range fy_min (fy_max + 1))
           = Ok tiles
        /\ combine_tiles tiles
                         match tiles with
                         | (tile :: _) :: _ => width tile
                         | _ => tile_size (_config self)
                         end
           = Ok composite
        /\ extent_to_tile_indices extent zoom_level = Ok (x_min, y_min, x_max, y_max)
        /\ picture
           = Resized (Raster composite)
                     ((x_max - x_min + 1) * tile_size (_config self),
                      (y_max - y_min + 1) * tile_size (_config self))
                     LANCZOS
        /\ size picture = ((x_max - x_min + 1) * tile_size (_config self),
                           (y_max - y_min + 1) * tile_size (_config self))
        /\ notices' = notices)
  /\ (forall fx_min fy_min fx_max fy_max x_min y_min x_max y_max,
         extent_to_tile_indices extent fetch_zoom = Ok (fx_min, fy_min, fx_max, fy_max) ->
         extent_to_tile_indices extent zoom_level = Ok (x_min, y_min, x_max, y_max) ->
         x_min <= x_max -> y_min <= y_max ->
         1 <= tile_size (_config self) ->
         (forall x y, fx_min <= x <= fx_max -> fy_min <= y <= fy_max ->
                      exists tile, fetch_tile net self fetch_zoom x y = Ok tile
                                   /\ 1 <= width tile) ->
         exists tiles composite,
           collect (fun y => collect (fun x => fetch_tile net self fetch_zoom x y)
                                     (range fx_min (fx_max + 1)))
                   (range fy_min (fy_max + 1))
           = Ok tiles
           /\ combine_tiles tiles
                            match tiles with
                            | (tile :: _) :: _ => width tile
                            | _ => tile_size (_config self)
                            end
              = Ok composite
           /\ fetch_tiles_for_extent net self extent zoom_level supersample resample
                                     resample_method
              = Ok (Resized (Raster composite)
                            ((x_max - x_min + 1) * tile_size (_config self),
                             (y_max - y_min + 1) * tile_size (_config self))
                            LANCZOS,
                    notices)).
Proof.
  intros Hval Hs. split.
  - now apply (supersampled_picture_shape net self extent zoom_level supersample resample
                 resample_method fetch_zoom s' notices).
  - now apply (supersampled_fetch_returns net self extent zoom_level supersample resample
                 resample_method fetch_zoom s' notices).
Qed.

Lemma fetch_tiles_for_extent_supersample_size_witness :
  exists tiles composite,
    collect (fun y => collect (fun x => fetch_tile (answering_200 (red_tile 256))
                                                   esri_terrain 1 x y)
                              (range 1 (1 + 1)))
            (range 0 (1 + 1))
    = Ok tiles
    /\ combine_tiles tiles
                     match tiles with
                     | (tile :: _) :: _ => width tile
                     | _ => tile_size (_config esri_terrain)
                     end
       = Ok composite
    /\ fetch_tiles_for_extent (answering_200 (red_tile 256)) esri_terrain
                              (0%R, 1%R, 0%R, 45%R) 0 1 true "nearest"
       = Ok (Resized (Raster composite)
                     ((0 - 0 + 1) * tile_size (_config esri_terrain),
                      (0 - 0 + 1) * tile_size (_config esri_terrain))
                     LANCZOS,
             []).
Proof.
  apply (proj2 (fetch_tiles_for_extent_supersample_size
                  (answering_200 (red_tile 256)) esri_terrain (0%R, 1%R, 0%R, 45%R)
                  0 1 true "nearest" 1 1 [] eq_refl ltac:(lia))
               1 0 1 1 0 0 0 0 extent_0_1_0_45_zoom_1 extent_0_1_0_45_zoom_0).
  - lia.
  - lia.
  - cbn. lia.
  - intros x y Hx Hy.
    assert (x = 1) by lia. assert (y = 0 \/ y = 1) as [-> | ->] by lia; subst x;
      (exists (red_tile 256); split; [reflexivity | cbn; lia]).
Defined.

(** The quality pipeline's size contract on that extent: two tiles are
    fetched at zoom 1 and the result has the size of the single tile of
    zoom 0. *)
Example supersample_size_contract :
  forall picture notices,
    fetch_tiles_for_extent (answering_200 (red_tile 256)) esri_terrain
                           (0%R, 1%R, 0%R, 45%R) 0 1 true "lanczos"
    = Ok (picture, notices) ->
    size picture = (256, 256).
Proof.
  intros picture notices Hrun.
  destruct (supersampled_picture_shape
              (answering_200 (red_tile 256)) esri_terrain (0%R, 1%R, 0%R, 45%R)
              0 1 true "lanczos" 1 1 [] eq_refl ltac:(lia) picture notices Hrun)
    as (fx_min & fy_min & fx_max & fy_max & tiles & composite
        & x_min & y_min & x_max & y_max & _ & _ & _ & Hreq & _ & Hsize & _).
  rewrite extent_0_1_0_45_zoom_0 in Hreq. injection Hreq as <- <- <- <-.
  exact Hsize.
Qed.

(** * Further properties of the code *)

(** ** More on the validator *)

(** X1. Validating the adjusted supersample again changes nothing and
    issues no warning. *)
Theorem validate_zoom_level_idempotent (self : Server) (z s fetch_zoom s' : Z)
        (notices : list warning) :
  _validate_zoom_level self z s = Ok ((fetch_zoom, s'), notices) ->
  _validate_zoom_level self z s' = Ok ((fetch_zoom, s'), []).
Proof.
  intros H.
  assert (Hz : zoom_floor self <= z <= zoom_ceiling self).
  { unfold _validate_zoom_level in H.
    destruct (Z.ltb_spec z (zoom_floor self)); [discriminate|].
    destruct (Z.gtb_spec z (zoom_ceiling self)); [discriminate|]. lia. }
  rewrite (validate_in_range self z s Hz) in H.
  rewrite (validate_in_range self z s' Hz).
  destruct (Z.gtb_spec (z + s) (zoom_ceiling self)); injection H as <- <- <-.
  - destruct (Z.gtb_spec (z + Z.max 0 (zoom_ceiling self - z)) (zoom_ceiling self));
      [lia|reflexivity].
  - destruct (Z.gtb_spec (z + s) (zoom_ceiling self)); [lia|reflexivity].
Qed.

Lemma validate_zoom_level_idempotent_witness :
  _validate_zoom_level esri_terrain 10 3 = Ok ((13, 3), []).
Proof.
  exact (validate_zoom_level_idempotent esri_terrain 10 5 13 3 _ eq_refl).
Defined.

(** X2. The validator never raises the supersample, keeps a non-negative
    one non-negative, and warns exactly when it lowers it. *)
Theorem validate_zoom_level_only_lowers (self : Server) (z s fetch_zoom s' : Z)
        (notices : list warning) :
  _validate_zoom_level self z s = Ok ((fetch_zoom, s'), notices) ->
  fetch_zoom = z + s' /\ s' <= s /\ (0 <= s -> 0 <= s')
  /\ (notices = [] <-> s' = s) /\ (List.length notices <= 1)%nat.
Proof.
  intros H.
  assert (Hz : zoom_floor self <= z <= zoom_ceiling self).
  { unfold _validate_zoom_level in H.
    destruct (Z.ltb_spec z (zoom_floor self)); [discriminate|].
    destruct (Z.gtb_spec z (zoom_ceiling self)); [discriminate|]. lia. }
  rewrite (validate_in_range self z s Hz) in H.
  destruct (Z.gtb_spec (z + s) (zoom_ceiling self)); injection H as <- <- <-.
  - repeat split; try lia; try (cbn; lia); intros; try discriminate; lia.
  - repeat split; try lia; cbn; lia.
Qed.

Lemma validate_zoom_level_only_lowers_witness :
  exists notice : warning,
    13 = 10 + 3 /\ 3 <= 5 /\ (0 <= 5 -> 0 <= 3)
    /\ ([notice] = [] <-> 3 = 5) /\ (List.length [notice] <= 1)%nat.
Proof.
  eexists.
  exact (validate_zoom_level_only_lowers esri_terrain 10 5 13 3 [_] eq_refl).
Defined.

(** ** Construction *)

Lemma providers_get_In (registry : list (string * Config)) (name : string) :
  In name (get_available_providers registry) <-> exists cfg, providers_get registry name = Some cfg.
Proof.
  unfold get_available_providers.
  induction registry as [|[k cfg] registry IH]; cbn.
  - split; [contradiction | intros [? ?]; discriminate].
  - destruct (String.eqb_spec k name) as [->|Hk].
    + split; [eauto | auto].
    + rewrite <- IH. split; [intros [?|?]; [contradiction|assumption] | auto].
Qed.

Lemma providers_get_entry (registry : list (string * Config)) (name : string) (cfg : Config) :
  providers_get registry name = Some cfg -> In (name, cfg) registry.
Proof.
  induction registry as [|[k c] registry IH]; cbn; [discriminate|].
  destruct (String.eqb_spec k name) as [->|Hk].
  - intros [= ->]. now left.
  - intros H. right. now apply IH.
Qed.

Lemma init_known (registry : list (string * Config)) (environ : Environ)
      (name : string) (key : option string) (cfg : Config) :
  providers_get registry name = Some cfg ->
  exists k notices, __init__ registry environ name key = Ok (mkServer name cfg k, notices).
Proof.
  intros H. unfold __init__. rewrite H.
  destruct (requires_api_key cfg); [|eauto].
  destruct (truthy key); [eauto|].
  match goal with
  | |- context [if truthy ?k then _ else _] => destruct (truthy k); [|eauto]
  end.
  match goal with
  | |- context [if truthy ?k then _ else _] => destruct (truthy k); eauto
  end.
Qed.

(** X3. A client is constructed exactly for the names that
    [get_available_providers] lists; its configuration is the entry that
    [get_provider_info] returns for the name; any other name raises
    [ValueError]. *)
Theorem init_accepts_listed_providers
        (registry : list (string * Config)) (environ : Environ)
        (name : string) (key : option string) :
  (In name (get_available_providers registry) ->
   exists self notices,
     __init__ registry environ name key = Ok (self, notices)
     /\ provider self = name
     /\ In (name, _config self) registry
     /\ (name <> "" ->
         get_provider_info registry (Some name) = Ok (OneProvider (_config self))))
  /\ (~ In name (get_available_providers registry) ->
      exists msg, __init__ registry environ name key = Raise (ValueError msg)).
Proof.
  split.
  - intros Hin. apply providers_get_In in Hin. destruct Hin as [cfg Hcfg].
    destruct (init_known registry environ name key cfg Hcfg) as (k & notices & Hinit).
    exists (mkServer name cfg k), notices. split; [exact Hinit|].
    split; [reflexivity|]. split; [now apply providers_get_entry|].
    intros Hne. unfold get_provider_info. cbn [truthy or_empty].
    destruct (String.eqb_spec name ""); [contradiction|]. cbn [negb].
    now rewrite Hcfg.
  - intros Hnot. unfold __init__.
    destruct (providers_get registry name) as [cfg|] eqn:E.
    + exfalso. apply Hnot. apply providers_get_In. eauto.
    + eexists. reflexivity.
Qed.

Lemma init_accepts_listed_providers_witness :
  (exists self notices,
      __init__ _PROVIDERS [] "Esri.Hydro" None = Ok (self, notices)
      /\ provider self = "Esri.Hydro"
      /\ In ("Esri.Hydro", _config self) _PROVIDERS
      /\ ("Esri.Hydro" <> "" ->
          get_provider_info _PROVIDERS (Some "Esri.Hydro") = Ok (OneProvider (_config self))))
  /\ (exists msg, __init__ _PROVIDERS [] "Esri.Nowhere" None = Raise (ValueError msg)).
Proof.
  split.
  - apply (proj1 (init_accepts_listed_providers _PROVIDERS [] "Esri.Hydro" None)).
    cbn. tauto.
  - apply (proj2 (init_accepts_listed_providers _PROVIDERS [] "Esri.Nowhere" None)).
    cbn. intros H.
    repeat (destruct H as [H|H]; [discriminate|]). exact H.
Defined.

(** X4. How the credential is resolved: an explicit key wins over the
    environment and is stored without a warning; a provider that requires
    no key stores the key as passed, without a warning; a warning is issued
    only for a provider that requires a key and ends up without one; and
    for a provider whose name contains [Stadia], with no [api_env] entry and
    no explicit key, the key is the value of [STADIA_API_KEY]. *)
Theorem init_credential_resolution
        (registry : list (string * Config)) (environ : Environ)
        (name : string) (key : option string) (self : Server) (notices : list warning) :
  __init__ registry environ name key = Ok (self, notices) ->
  (truthy key = true -> api_key self = key /\ notices = [])
  /\ (requires_api_key (_config self) = false -> api_key self = key /\ notices = [])
  /\ (notices <> [] ->
      requires_api_key (_config self) = true /\ truthy key = false
      /\ truthy (api_key self) = false)
  /\ (requires_api_key (_config self) = true -> truthy key = false ->
      truthy (api_env (_config self)) = false -> contains "Stadia" name = true ->
      api_key self = lookup environ "STADIA_API_KEY"
      /\ (notices = [] <-> truthy (lookup environ "STADIA_API_KEY") = true)).
Proof.
  unfold __init__. destruct (providers_get registry name) as [cfg|]; [|discriminate].
  cbv zeta.
  destruct (requires_api_key cfg) eqn:Hreq.
  - destruct (truthy key) eqn:Hkey.
    + intros [= <- <-]. cbn [api_key _config]. rewrite Hreq.
      repeat split; try congruence; try discriminate.
    + destruct (truthy (api_env cfg)) eqn:Henv; cbv iota; rewrite ?Henv.
      * destruct (truthy (lookup environ (or_empty (api_env cfg)))) eqn:Hfound;
          intros [= <- <-]; cbn [api_key _config]; rewrite ?Hreq, ?Henv;
          repeat split; try congruence; try discriminate.
      * destruct (contains "Stadia" name) eqn:Hst; cbv iota.
        -- change (truthy (Some "STADIA_API_KEY")) with true.
           change (or_empty (Some "STADIA_API_KEY")) with "STADIA_API_KEY".
           cbv iota.
           destruct (truthy (lookup environ "STADIA_API_KEY")) eqn:Hfound;
             intros [= <- <-]; cbn [api_key _config]; rewrite ?Hreq, ?Henv;
             repeat split; try congruence; try discriminate.
        -- change (truthy None) with false. cbv iota.
           intros [= <- <-]. cbn [api_key _config]. rewrite ?Hreq, ?Henv.
           repeat split; try congruence; try discriminate.
  - intros [= <- <-]. cbn [api_key _config]. rewrite Hreq.
    repeat split; try congruence; try discriminate.
Qed.

Lemma init_credential_resolution_witness :
  api_key (mkServer "Stadia.StamenTerrain" (_config stadia_without_key) (Some "from-env"))
  = lookup [("STADIA_API_KEY", "from-env")] "STADIA_API_KEY"
  /\ (@nil warning = [] <-> truthy (lookup [("STADIA_API_KEY", "from-env")] "STADIA_API_KEY") = true).
Proof.
  apply (init_credential_resolution _PROVIDERS [("STADIA_API_KEY", "from-env")]
           "Stadia.StamenTerrain" None
           (mkServer "Stadia.StamenTerrain" (_config stadia_without_key) (Some "from-env"))
           [] eq_refl); reflexivity.
Defined.

(** ** Tile URLs *)

(** X5. Every template of the registry formats for every tile and every
    key, and for a provider that requires no key the URL is the same
    whatever key the client holds. *)
Theorem registry_urls_well_formed (name : string) (cfg : Config) :
  In (name, cfg) _PROVIDERS ->
  (forall key z x y, exists url, _build_tile_url (mkServer name cfg key) z x y = Ok url)
  /\ (requires_api_key cfg = false ->
      forall key1 key2 z x y,
        _build_tile_url (mkServer name cfg key1) z x y
        = _build_tile_url (mkServer name cfg key2) z x y).
Proof.
  intros Hin. cbn in Hin.
  repeat (destruct Hin as [Heq|Hin];
          [injection Heq as <- <-;
           split; [intros; eexists; reflexivity
                  | intros Hreq; try discriminate Hreq; intros; reflexivity]|]).
  contradiction.
Qed.

Lemma registry_urls_well_formed_witness :
  (forall key z x y, exists url,
        _build_tile_url (mkServer "OSM.Standard"
                                  (provider_entry "https://tile.openstreetmap.org/{z}/{x}/{y}.png"
                                                  256 false None 0 19) key) z x y = Ok url)
  /\ (false = false ->
      forall key1 key2 z x y,
        _build_tile_url (mkServer "OSM.Standard"
                                  (provider_entry "https://tile.openstreetmap.org/{z}/{x}/{y}.png"
                                                  256 false None 0 19) key1) z x y
        = _build_tile_url (mkServer "OSM.Standard"
                                    (provider_entry "https://tile.openstreetmap.org/{z}/{x}/{y}.png"
                                                    256 false None 0 19) key2) z x y).
Proof.
  apply (registry_urls_well_formed "OSM.Standard"
           (provider_entry "https://tile.openstreetmap.org/{z}/{x}/{y}.png" 256 false None 0 19)).
  cbn. tauto.
Defined.

(** ** Fetching one tile *)

Lemma apply_special_handling_size (self : Server) (img : Image) :
  width (_apply_special_handling self img) = width img
  /\ height (_apply_special_handling self img) = height img.
Proof.
  unfold _apply_special_handling.
  destruct (special_handling (_config self)) as [h|]; [|auto].
  destruct (String.eqb h "make_black_transparent"); auto.
Qed.

(** X6. [fetch_tile] returns a tile exactly when the URL can be built and
    the request to it is answered with status 200 and a decodable image;
    the tile is that image, post-processed when the provider has a
    directive, and always has the size of that image. *)
Theorem fetch_tile_only_from_200 (net : Network) (self : Server) (z x y : Z) (tile : Image) :
  fetch_tile net self z x y = Ok tile
  <-> exists url img,
      _build_tile_url self z x y = Ok url
      /\ net url = Ok (mkResponse 200 (Encoded img))
      /\ tile = (if truthy (special_handling (_config self))
                 then _apply_special_handling self img else img)
      /\ width tile = width img /\ height tile = height img.
Proof.
  unfold fetch_tile. split.
  - destruct (_build_tile_url self z x y) as [url|e]; [cbn [bind]|discriminate].
    destruct (net url) as [[status [img|]]|e] eqn:Hnet;
      cbn [bind status_code content]; try discriminate.
    + destruct (Z.eqb_spec status 200) as [->|]; [|discriminate].
      cbn [Image_open bind].
      pose proof (apply_special_handling_size self img) as [Hw Hh].
      destruct (truthy (special_handling (_config self))); intros [= <-];
        exists url, img; (split; [reflexivity|]); (split; [exact Hnet|]); auto.
    + destruct (Z.eqb_spec status 200) as [->|]; discriminate.
  - intros (url & img & Hurl & Hnet & -> & _). rewrite Hurl. cbn [bind]. rewrite Hnet.
    cbn. destruct (truthy (special_handling (_config self))); reflexivity.
Qed.

Lemma fetch_tile_only_from_200_witness :
  exists url img,
    _build_tile_url esri_terrain 1 0 0 = Ok url
    /\ one_sub_tile_missing url = Ok (mkResponse 200 (Encoded img))
    /\ red_tile 256 = (if truthy (special_handling (_config esri_terrain))
                       then _apply_special_handling esri_terrain img else img)
    /\ width (red_tile 256) = width img /\ height (red_tile 256) = height img.
Proof.
  exact (proj1 (fetch_tile_only_from_200 one_sub_tile_missing esri_terrain 1 0 0
                                         (red_tile 256)) eq_refl).
Defined.

(** X7. The failures of [fetch_tile]: it raises the error of formatting
    the URL, or the exception of the transport, unchanged, or, for a
    response whose status is not 200, an [Exception] whose message names
    the provider, the status and the URL, or [UnidentifiedImageError] for
    a 200 response that is no image; it raises nothing else. *)
Theorem fetch_tile_failures (net : Network) (self : Server) (z x y : Z) (e : exn) :
  fetch_tile net self z x y = Raise e ->
  _build_tile_url self z x y = Raise e
  \/ exists url,
      _build_tile_url self z x y = Ok url
      /\ (net url = Raise e
          \/ (exists status body,
                 net url = Ok (mkResponse status body) /\ status <> 200
                 /\ e = Exception ("Failed to fetch tile from " ++ provider self ++ ": HTTP "
                                      ++ str status ++ " - " ++ url))
          \/ (net url = Ok (mkResponse 200 Garbage) /\ e = UnidentifiedImageError)).
Proof.
  unfold fetch_tile.
  destruct (_build_tile_url self z x y) as [url|e0]; cbn [bind];
    [|intros [= ->]; now left].
  intros H. right. exists url. split; [reflexivity|].
  destruct (net url) as [[status body]|e0]; cbn [bind status_code content] in H.
  - destruct (Z.eqb_spec status 200) as [->|Hs].
    + destruct body as [img|]; cbn [Image_open bind] in H.
      * destruct (truthy (special_handling (_config self))); discriminate.
      * injection H as <-. right. right. split; reflexivity.
    + injection H as <-. right. left. exists status, body. repeat split. exact Hs.
  - injection H as <-. now left.
Qed.

Lemma fetch_tile_failures_witness :
  _build_tile_url esri_terrain 1 1 1 = Raise (Exception "Failed to fetch tile from Esri.Terrain: HTTP 404 - https://server.arcgisonline.com/ArcGIS/rest/services/World_Terrain_Base/MapServer/tile/1/1/1")
  \/ exists url,
      _build_tile_url esri_terrain 1 1 1 = Ok url
      /\ (one_sub_tile_missing url = Raise (Exception "Failed to fetch tile from Esri.Terrain: HTTP 404 - https://server.arcgisonline.com/ArcGIS/rest/services/World_Terrain_Base/MapServer/tile/1/1/1")
          \/ (exists status body,
                 one_sub_tile_missing url = Ok (mkResponse status body) /\ status <> 200
                 /\ Exception "Failed to fetch tile from Esri.Terrain: HTTP 404 - https://server.arcgisonline.com/ArcGIS/rest/services/World_Terrain_Base/MapServer/tile/1/1/1"
                    = Exception ("Failed to fetch tile from " ++ provider esri_terrain ++ ": HTTP "
                                   ++ str status ++ " - " ++ url))
          \/ (one_sub_tile_missing url = Ok (mkResponse 200 Garbage)
              /\ Exception "Failed to fetch tile from Esri.Terrain: HTTP 404 - https://server.arcgisonline.com/ArcGIS/rest/services/World_Terrain_Base/MapServer/tile/1/1/1"
                 = UnidentifiedImageError)).
Proof.
  exact (fetch_tile_failures one_sub_tile_missing esri_terrain 1 1 1 _ eq_refl).
Defined.

(** ** Post-processing *)

Lemma black_to_transparent_idempotent (p : RGBA) :
  black_to_transparent (black_to_transparent p) = black_to_transparent p.
Proof.
  destruct p as [[[r g] b] a]. unfold black_to_transparent.
  destruct ((r =? 0) && (g =? 0) && (b =? 0)) eqn:E; [reflexivity|].
  now rewrite E.
Qed.

(** X8. Post-processing is idempotent; a provider without directive, or
    with a directive other than [make_black_transparent], leaves the image
    as decoded, in its own mode. *)
Theorem apply_special_handling_idempotent (self : Server) (img : Image) :
  _apply_special_handling self (_apply_special_handling self img)
  = _apply_special_handling self img
  /\ (special_handling (_config self) <> Some "make_black_transparent" ->
      _apply_special_handling self img = img).
Proof.
  unfold _apply_special_handling.
  destruct (special_handling (_config self)) as [h|]; [|split; reflexivity].
  destruct (String.eqb_spec h "make_black_transparent") as [->|Hh].
  - split; [|intros H; now contradiction H].
    unfold putdata, getdata, convert_RGBA, rgba_data. cbn [width height bands].
    rewrite map_map. f_equal. f_equal. apply map_ext.
    intros p. apply black_to_transparent_idempotent.
  - split; reflexivity.
Qed.

Lemma apply_special_handling_idempotent_witness :
  _apply_special_handling esri_terrain red_pixel = red_pixel.
Proof.
  apply (proj2 (apply_special_handling_idempotent esri_terrain red_pixel)). discriminate.
Defined.

(** ** More on the compositor *)

Lemma for_each_raises {A St : Type} (xs : list A) (body : A -> St -> result St)
      (e : exn) (s : St) :
  (forall x st, In x xs -> body x st = Raise e \/ exists st', body x st = Ok st') ->
  (exists x, In x xs /\ forall st, body x st = Raise e) ->
  for_each xs body s = Raise e.
Proof.
  revert s. induction xs as [|x xs IH]; intros s Hall (bad & Hin & Hbad).
  - contradiction.
  - cbn [for_each]. destruct (Hall x s (or_introl eq_refl)) as [Hr|(st' & Hok)].
    + now rewrite Hr.
    + rewrite Hok. cbn [bind]. apply IH.
      * intros y st Hy. apply Hall. now right.
      * destruct Hin as [<-|Hin]; [rewrite Hbad in Hok; discriminate|].
        exists bad. auto.
Qed.

Lemma for_each_ok_or_raises {A St : Type} (xs : list A) (body : A -> St -> result St)
      (e : exn) (s : St) :
  (forall x st, In x xs -> body x st = Raise e \/ exists st', body x st = Ok st') ->
  for_each xs body s = Raise e \/ exists s', for_each xs body s = Ok s'.
Proof.
  revert s. induction xs as [|x xs IH]; intros s Hall.
  - right. now exists s.
  - cbn [for_each]. destruct (Hall x s (or_introl eq_refl)) as [Hr|(st' & Hok)].
    + left. now rewrite Hr.
    + rewrite Hok. cbn [bind]. apply IH. intros y st Hy. apply Hall. now right.
Qed.

Lemma range_In_iff (n k : Z) : In k (range 0 n) <-> 0 <= k < n.
Proof.
  unfold range. rewrite Z.sub_0_r, in_map_iff. split.
  - intros (i & <- & Hi). apply in_seq in Hi. lia.
  - intros Hk. exists (Z.to_nat k). split; [lia|]. apply in_seq. lia.
Qed.

Lemma paste_step_ok_or_index (tiles : list (list Image)) (tile_size row col : Z)
      (canvas : Image) :
  (tiles_row <- getitem tiles row ;;
   tile <- getitem tiles_row col ;;
   Ok (paste canvas tile (col * tile_size, row * tile_size))) = Raise IndexError
  \/ exists canvas',
      (tiles_row <- getitem tiles row ;;
       tile <- getitem tiles_row col ;;
       Ok (paste canvas tile (col * tile_size, row * tile_size))) = Ok canvas'.
Proof.
  unfold getitem.
  destruct (nth_error tiles (Z.to_nat row)) as [tiles_row|]; cbn [bind]; [|now left].
  destruct (nth_error tiles_row (Z.to_nat col)) as [tile|]; cbn [bind]; [|now left].
  right. eexists. reflexivity.
Qed.

(** X9. A grid in which some row has fewer tiles than the first row makes
    [combine_tiles] raise [IndexError]: no canvas is returned with a hole
    in it. *)
Theorem combine_tiles_ragged (tiles : list (list Image)) (tile_size : Z)
        (short : list Image) :
  0 <= tile_size ->
  In short tiles ->
  (List.length short < List.length (nth 0 tiles []))%nat ->
  combine_tiles tiles tile_size = Raise IndexError.
Proof.
  intros Hts Hin Hshort.
  assert (Hrows : 0 < Z.of_nat (List.length tiles)) by (destruct tiles; [contradiction|cbn; lia]).
  assert (Hcols : 0 < Z.of_nat (List.length (nth 0 tiles []))) by lia.
  rewrite combine_tiles_grid by assumption.
  rewrite Image_new_ok by lia. cbn [bind].
  destruct (In_nth_error _ _ Hin) as [r Hr].
  assert (Hrlt : (r < List.length tiles)%nat) by (apply nth_error_Some; congruence).
  apply for_each_raises.
  - intros row canvas _. apply for_each_ok_or_raises.
    intros col canvas' _. apply paste_step_ok_or_index.
  - exists (Z.of_nat r). split; [apply range_In_iff; lia|].
    intros canvas. apply for_each_raises.
    + intros col canvas' _. apply paste_step_ok_or_index.
    + exists (Z.of_nat (List.length short)). split; [apply range_In_iff; lia|].
      intros canvas'. unfold getitem. rewrite !Nat2Z.id, Hr. cbn [bind].
      assert (Hnone : nth_error short (List.length short) = None)
        by (apply nth_error_None; lia).
      now rewrite Hnone.
Qed.

Lemma combine_tiles_ragged_witness :
  combine_tiles [[red_pixel; red_pixel]; [red_pixel]] 1 = Raise IndexError.
Proof.
  apply (combine_tiles_ragged [[red_pixel; red_pixel]; [red_pixel]] 1 [red_pixel]);
    [lia | cbn; tauto | cbn; lia].
Defined.

(** X10. A negative tile edge makes [combine_tiles] raise [ValueError],
    for every grid. *)
Theorem combine_tiles_negative_edge (tiles : list (list Image)) (tile_size : Z) :
  tile_size < 0 ->
  exists msg, combine_tiles tiles tile_size = Raise (ValueError msg).
Proof.
  intros Hts. unfold combine_tiles. cbv zeta.
  destruct ((Z.of_nat (List.length tiles) =? 0)
            || ((if Z.of_nat (List.length tiles) >? 0
                 then Z.of_nat (List.length (nth 0 tiles [])) else 0) =? 0)) eqn:Hdeg.
  - unfold Image_new. destruct (Z.ltb_spec tile_size 0); [|lia]. cbn [orb].
    eexists. reflexivity.
  - apply orb_false_iff in Hdeg. destruct Hdeg as [Hr Hc].
    destruct (Z.gtb_spec (Z.of_nat (List.length tiles)) 0);
      [|rewrite Z.eqb_refl in Hc; discriminate].
    apply Z.eqb_neq in Hc. unfold Image_new.
    destruct (Z.ltb_spec (Z.of_nat (List.length (nth 0 tiles [])) * tile_size) 0); [|nia].
    cbn [orb bind]. eexists. reflexivity.
Qed.

Lemma combine_tiles_negative_edge_witness :
  exists msg, combine_tiles [[red_pixel]] (-1) = Raise (ValueError msg).
Proof. apply (combine_tiles_negative_edge [[red_pixel]] (-1)). lia. Defined.

(** ** Fetching an extent without supersampling *)

Lemma collect_Forall2 {A B : Type} (f : A -> result B) (xs : list A) (bs : list B) :
  collect f xs = Ok bs <-> Forall2 (fun x b => f x = Ok b) xs bs.
Proof.
  revert bs. induction xs as [|x xs IH]; intros bs; cbn [collect].
  - split; [intros [= <-]; constructor | intros H; inversion H; reflexivity].
  - split.
    + destruct (f x) as [b|e] eqn:Hx; cbn [bind]; [|discriminate].
      destruct (collect f xs) as [bs'|e] eqn:Hxs; cbn [bind]; [|discriminate].
      intros [= <-]. constructor; [exact Hx | exact (proj1 (IH bs') eq_refl)].
    + intros H. inversion H as [|? b ? bs' Hx Hxs]; subst.
      rewrite Hx. cbn [bind]. apply IH in Hxs. rewrite Hxs. reflexivity.
Qed.

Lemma collect_In {A B : Type} (f : A -> result B) (xs : list A) (bs : list B) (x : A) :
  collect f xs = Ok bs -> In x xs -> exists b, f x = Ok b /\ In b bs.
Proof.
  revert bs. induction xs as [|a xs IH]; intros bs Hc Hin; [contradiction|].
  cbn [collect] in Hc.
  destruct (f a) as [b|e] eqn:Ha; cbn [bind] in Hc; [|discriminate].
  destruct (collect f xs) as [bs'|e] eqn:Hxs; cbn [bind] in Hc; [|discriminate].
  injection Hc as <-. destruct Hin as [<-|Hin].
  - exists b. split; [exact Ha | now left].
  - destruct (IH bs' eq_refl Hin) as (b' & Hb' & Hin'). exists b'. split; [exact Hb' | now right].
Qed.

Lemma range_first (lo hi : Z) : lo < hi -> exists rest, range lo hi = lo :: rest.
Proof.
  intros H. unfold range. destruct (Z.to_nat (hi - lo)) as [|m] eqn:E; [lia|].
  cbn [seq map]. rewrite Z.add_0_r. eexists. reflexivity.
Qed.

Lemma range_empty (lo hi : Z) : hi <= lo -> range lo hi = [].
Proof.
  intros H. unfold range. replace (Z.to_nat (hi - lo)) with 0%nat by lia. reflexivity.
Qed.

Lemma range_len (lo hi : Z) : List.length (range lo hi) = Z.to_nat (hi - lo).
Proof. unfold range. now rewrite length_map, length_seq. Qed.

Lemma range_In_between (lo hi k : Z) : lo <= k < hi -> In k (range lo hi).
Proof.
  intros Hk. unfold range. apply in_map_iff. exists (Z.to_nat (k - lo)).
  split; [lia|]. apply in_seq. lia.
Qed.

(** The picture that [fetch_tiles_for_extent] makes of the composite when
    the effective supersample is not positive. *)
Lemma fetch_tiles_for_extent_unsupersampled
      (net : Network) (self : Server) (extent : Extent)
      (zoom_level supersample : Z) (resample : bool) (resample_method : string)
      (fetch_zoom s' : Z) (notices : list warning) :
  _validate_zoom_level self zoom_level supersample = Ok ((fetch_zoom, s'), notices) ->
  s' <= 0 ->
  fetch_tiles_for_extent net self extent zoom_level supersample resample resample_method
  = ('(x_min, y_min, x_max, y_max) <- extent_to_tile_indices extent fetch_zoom ;;
     tiles <- collect
                (fun y => collect (fun x => fetch_tile net self fetch_zoom x y)
                                  (range x_min (x_max + 1)))
                (range y_min (y_max + 1)) ;;
     combined_img <-
       combine_tiles tiles
                     match tiles with
                     | (tile :: _) :: _ => width tile
                     | _ => tile_size (_config self)
                     end ;;
     picture <-
       (if resample && (s' =? 0)
        then smoothed combined_img (_get_resample_filter resample_method)
        else Ok (Raster combined_img)) ;;
     Ok (picture, notices)).
Proof.
  intros Hval Hs. unfold fetch_tiles_for_extent. rewrite Hval. cbn [bind].
  destruct (extent_to_tile_indices extent fetch_zoom) as [[[[a b] c] d]|e];
    [cbn [bind]|reflexivity].
  destruct (collect _ _) as [tiles|e]; [cbn [bind]|reflexivity].
  destruct (combine_tiles _ _) as [combined|e]; [cbn [bind]|reflexivity].
  destruct (Z.gtb_spec s' 0) as [|_]; [lia|]. cbn [bind].
  destruct (resample && (s' =? 0)); reflexivity.
Qed.

(** The two resizes of the smoothing step return for an image that is
    empty or has a positive width and height. *)
Lemma smoothed_returns (img : Image) (resample_filter : Filter) :
  (width img = 0 /\ height img = 0) \/ (1 <= width img /\ 1 <= height img) ->
  smoothed img resample_filter
  = Ok (Resized (Resized (Raster img)
                         (scaled_102 (width img), scaled_102 (height img)) BICUBIC)
                (width img, height img) resample_filter).
Proof.
  intros Hsize. unfold smoothed.
  destruct Hsize as [[Hw Hh] | [Hw Hh]].
  - unfold resize. cbn [size fst snd]. rewrite Hw, Hh. reflexivity.
  - assert (Hsw : 1 <= scaled_102 (width img))
      by (unfold scaled_102; apply Z.quot_le_lower_bound; lia).
    assert (Hsh : 1 <= scaled_102 (height img))
      by (unfold scaled_102; apply Z.quot_le_lower_bound; lia).
    rewrite resize_returns by assumption. cbn [bind].
    now rewrite resize_returns.
Qed.

(** Without supersampling, when every tile of the range is fetched. *)
Lemma unsupersampled_fetch_returns
      (net : Network) (self : Server) (extent : Extent)
      (zoom_level supersample : Z) (resample : bool) (resample_method : string)
      (fetch_zoom s' : Z) (notices : list warning)
      (x_min y_min x_max y_max : Z) (first : Image) :
  _validate_zoom_level self zoom_level supersample = Ok ((fetch_zoom, s'), notices) ->
  s' <= 0 ->
  extent_to_tile_indices extent fetch_zoom = Ok (x_min, y_min, x_max, y_max) ->
  x_min <= x_max -> y_min <= y_max ->
  fetch_tile net self fetch_zoom x_min y_min = Ok first ->
  0 <= width first ->
  (forall x y, x_min <= x <= x_max -> y_min <= y <= y_max ->
               exists tile, fetch_tile net self fetch_zoom x y = Ok tile) ->
  exists composite,
    fetch_tiles_for_extent net self extent zoom_level supersample resample resample_method
    = Ok (if resample && (s' =? 0)
          then Resized (Resized (Raster composite)
                                (scaled_102 (width composite), scaled_102 (height composite))
                                BICUBIC)
                       (width composite, height composite)
                       (_get_resample_filter resample_method)
          else Raster composite,
          notices)
    /\ width composite = (x_max - x_min + 1) * width first
    /\ height composite = (y_max - y_min + 1) * width first.
Proof.
  intros Hval Hs Hidx Hx Hy Hfirst Hw Hall.
  rewrite (fetch_tiles_for_extent_unsupersampled net self extent zoom_level supersample
             resample resample_method fetch_zoom s' notices Hval Hs).
  rewrite Hidx. cbn [bind].
  set (cols := List.length (range x_min (x_max + 1))).
  destruct (collect_ok
              (fun tiles_row => List.length tiles_row = cols)
              (fun y => collect (fun x => fetch_tile net self fetch_zoom x y)
                                (range x_min (x_max + 1)))
              (range y_min (y_max + 1))) as (tiles & Hcollect & Hlen & Hrows).
  { intros y Hyin. apply range_In in Hyin.
    destruct (collect_ok (fun _ => True)
                         (fun x => fetch_tile net self fetch_zoom x y)
                         (range x_min (x_max + 1))) as (tiles_row & Hrow & Hl & _).
    { intros x Hxin. apply range_In in Hxin.
      destruct (Hall x y) as [tile Htile]; [lia | lia |]. now exists tile. }
    exists tiles_row. auto. }
  rewrite Hcollect. cbn [bind].
  assert (Hhead : exists tiles_row tiles', tiles = (first :: tiles_row) :: tiles').
  { apply collect_Forall2 in Hcollect.
    destruct (range_first y_min (y_max + 1)) as [ys Hys]; [lia|].
    rewrite Hys in Hcollect. inversion Hcollect as [|? row0 ? tiles' Hrow0 _]; subst.
    apply collect_Forall2 in Hrow0.
    destruct (range_first x_min (x_max + 1)) as [xs Hxs]; [lia|].
    rewrite Hxs in Hrow0. inversion Hrow0 as [|? t0 ? row' Ht0 _]; subst.
    rewrite Hfirst in Ht0. injection Ht0 as <-. now exists row', tiles'. }
  destruct Hhead as (tiles_row & tiles' & ->).
  assert (Hcols : Z.of_nat cols = x_max - x_min + 1)
    by (unfold cols; rewrite range_len; lia).
  assert (Hrowlen : List.length (first :: tiles_row) = cols)
    by now inversion Hrows.
  destruct (combine_tiles_size ((first :: tiles_row) :: tiles') (width first))
    as (composite & Hcompose & _ & Hcw & Hch & _).
  - exact Hw.
  - cbn [List.length]. lia.
  - cbn [nth]. rewrite Hrowlen. lia.
  - cbn [nth]. rewrite Hrowlen. apply Forall_forall. intros r Hr.
    now rewrite (proj1 (Forall_forall _ _) Hrows r Hr).
  - rewrite Hcompose. cbn [bind]. exists composite.
    cbn [nth] in Hcw. rewrite Hrowlen, Hcols in Hcw.
    rewrite range_len in Hlen. rewrite Hlen in Hch.
    assert (Hheight : height composite = (y_max - y_min + 1) * width first)
      by (rewrite Hch; f_equal; lia).
    split; [|split; [exact Hcw | exact Hheight]].
    destruct (resample && (s' =? 0)); [|reflexivity].
    rewrite smoothed_returns by nia. reflexivity.
Qed.

(** X11. Without supersampling, when the tile range of the extent is not
    empty and every tile of it is fetched, [fetch_tiles_for_extent]
    returns: the composite is as many tiles wide and high as the range,
    measured in the width of the first tile fetched; with [resample] and an
    effective supersample of 0 it is enlarged with the bicubic filter and
    brought back to its own size with the requested filter, and otherwise
    it is returned as it is. *)
Theorem fetch_tiles_for_extent_plain
        (net : Network) (self : Server) (extent : Extent)
        (zoom_level supersample : Z) (resample : bool) (resample_method : string)
        (fetch_zoom s' : Z) (notices : list warning)
        (x_min y_min x_max y_max : Z) (first : Image) :
  _validate_zoom_level self zoom_level supersample = Ok ((fetch_zoom, s'), notices) ->
  s' <= 0 ->
  extent_to_tile_indices extent fetch_zoom = Ok (x_min, y_min, x_max, y_max) ->
  x_min <= x_max -> y_min <= y_max ->
  fetch_tile net self fetch_zoom x_min y_min = Ok first ->
  0 <= width first ->
  (forall x y, x_min <= x <= x_max -> y_min <= y <= y_max ->
               exists tile, fetch_tile net self fetch_zoom x y = Ok tile) ->
  exists composite picture,
    fetch_tiles_for_extent net self extent zoom_level supersample resample resample_method
    = Ok (picture, notices)
    /\ width composite = (x_max - x_min + 1) * width first
    /\ height composite = (y_max - y_min + 1) * width first
    /\ size picture = (width composite, height composite)
    /\ picture
       = if resample && (s' =? 0)
         then Resized (Resized (Raster composite)
                               (scaled_102 (width composite), scaled_102 (height composite))
                               BICUBIC)
                      (width composite, height composite)
                      (_get_resample_filter resample_method)
         else Raster composite.
Proof.
  intros Hval Hs Hidx Hx Hy Hfirst Hw Hall.
  destruct (unsupersampled_fetch_returns net self extent zoom_level supersample resample
              resample_method fetch_zoom s' notices x_min y_min x_max y_max first
              Hval Hs Hidx Hx Hy Hfirst Hw Hall) as (composite & Hfetch & Hcw & Hch).
  exists composite. eexists. split; [exact Hfetch|].
  split; [exact Hcw|]. split; [exact Hch|].
  split; [|reflexivity]. destruct (resample && (s' =? 0)); reflexivity.
Qed.

Lemma fetch_tiles_for_extent_plain_witness :
  exists composite picture,
    fetch_tiles_for_extent (answering_200 (red_tile 256)) esri_terrain (0, 1, 0, 45)%R 1 0
                           true "bilinear"
    = Ok (picture, [])
    /\ width composite = (1 - 1 + 1) * width (red_tile 256)
    /\ height composite = (1 - 0 + 1) * width (red_tile 256)
    /\ size picture = (width composite, height composite)
    /\ picture
       = if true && (0 =? 0)
         then Resized (Resized (Raster composite)
                               (scaled_102 (width composite), scaled_102 (height composite))
                               BICUBIC)
                      (width composite, height composite)
                      (_get_resample_filter "bilinear")
         else Raster composite.
Proof.
  apply (fetch_tiles_for_extent_plain (answering_200 (red_tile 256)) esri_terrain
           (0, 1, 0, 45)%R 1 0 true "bilinear" 1 0 [] 1 0 1 1 (red_tile 256)).
  - reflexivity.
  - lia.
  - exact extent_0_1_0_45_zoom_1.
  - lia.
  - lia.
  - reflexivity.
  - cbn. lia.
  - intros x y _ _. eexists. reflexivity.
Defined.

(** The tile range of [(0, 1, 0, 45)] at zoom 1 on a network that answers
    every request with a red tile. *)
Lemma fetch_red_extent :
  exists picture,
    fetch_tiles_for_extent (answering_200 (red_tile 256)) esri_terrain (0, 1, 0, 45)%R 1 0
                           false "lanczos"
    = Ok (picture, []).
Proof.
  destruct (unsupersampled_fetch_returns (answering_200 (red_tile 256)) esri_terrain
              (0, 1, 0, 45)%R 1 0 false "lanczos" 1 0 [] 1 0 1 1 (red_tile 256))
    as (composite & Hfetch & _).
  - reflexivity.
  - lia.
  - exact extent_0_1_0_45_zoom_1.
  - lia.
  - lia.
  - reflexivity.
  - cbn. lia.
  - intros x y _ _. eexists. reflexivity.
  - eexists. exact Hfetch.
Qed.

(** X12. [fetch_tiles_for_extent] never returns a partial composite: when
    it returns a picture, every tile of the range at the fetch zoom was
    fetched. *)
Theorem fetch_tiles_for_extent_needs_every_tile
        (net : Network) (self : Server) (extent : Extent)
        (zoom_level supersample : Z) (resample : bool) (resample_method : string)
        (fetch_zoom s' : Z) (notices notices' : list warning)
        (x_min y_min x_max y_max : Z) (picture : Picture) :
  _validate_zoom_level self zoom_level supersample = Ok ((fetch_zoom, s'), notices) ->
  extent_to_tile_indices extent fetch_zoom = Ok (x_min, y_min, x_max, y_max) ->
  fetch_tiles_for_extent net self extent zoom_level supersample resample resample_method
  = Ok (picture, notices') ->
  forall x y, x_min <= x <= x_max -> y_min <= y <= y_max ->
              exists tile, fetch_tile net self fetch_zoom x y = Ok tile.
Proof.
  intros Hval Hidx Hfetch x y Hx Hy.
  unfold fetch_tiles_for_extent in Hfetch. rewrite Hval in Hfetch. cbn [bind] in Hfetch.
  rewrite Hidx in Hfetch. cbn [bind] in Hfetch.
  destruct (collect _ (range y_min (y_max + 1))) as [tiles|e] eqn:Hcollect;
    [|discriminate].
  clear Hfetch.
  destruct (collect_In _ _ _ y Hcollect) as (tiles_row & Hrow & _);
    [apply range_In_between; lia|].
  destruct (collect_In _ _ _ x Hrow) as (tile & Htile & _);
    [apply range_In_between; lia|].
  now exists tile.
Qed.

Lemma fetch_tiles_for_extent_needs_every_tile_witness :
  exists tile, fetch_tile (answering_200 (red_tile 256)) esri_terrain 1 1 1 = Ok tile.
Proof.
  destruct fetch_red_extent as [picture Hfetch].
  apply (fetch_tiles_for_extent_needs_every_tile
           (answering_200 (red_tile 256)) esri_terrain (0, 1, 0, 45)%R 1 0 false "lanczos"
           1 0 [] [] 1 0 1 1 picture eq_refl extent_0_1_0_45_zoom_1 Hfetch 1 1); lia.
Defined.

(** ** The tile grid across zoom levels *)

Section TileGrid.

Local Open Scope R_scope.

(** Truncation commutes with refining the grid: the cell of [v] in a grid
    [n] times finer lies in the cell of [v]. *)
Lemma int_scale (v : R) (n : Z) :
  0 <= v -> (0 < n)%Z -> (int (v * IZR n) / n = int v)%Z.
Proof.
  intros Hv Hn.
  assert (HnR : 0 < IZR n) by now apply IZR_lt.
  destruct (proj1 (int_spec v) Hv) as [Hlo Hhi].
  assert (Hvn : 0 <= v * IZR n) by nra.
  destruct (proj1 (int_spec (v * IZR n)) Hvn) as [Hqlo Hqhi].
  set (m := int v) in *. set (q := int (v * IZR n)) in *.
  assert (H1 : (m * n < q + 1)%Z).
  { apply lt_IZR. rewrite mult_IZR, plus_IZR. nra. }
  assert (H2 : (q < (m + 1) * n)%Z).
  { apply lt_IZR. rewrite mult_IZR, plus_IZR. nra. }
  symmetry. apply (Z.div_unique q n m (q - n * m)); lia.
Qed.

Lemma powerRZ_2_pos (zoom : Z) : 0 < powerRZ 2 zoom.
Proof. apply powerRZ_lt. lra. Qed.

Lemma powerRZ_2_add (zoom k : Z) :
  (0 <= k)%Z -> powerRZ 2 (zoom + k) = powerRZ 2 zoom * IZR (2 ^ k).
Proof.
  intros Hk. rewrite powerRZ_add by lra. now rewrite (powerRZ_2_IZR k Hk).
Qed.

Lemma radians_within_85 (lat : R) :
  -85 < lat < 85 -> - (85 * (PI / 180)) < math_radians lat < 85 * (PI / 180).
Proof.
  intros [Hlo Hhi]. unfold math_radians. pose proof PI_RGT_0 as Hpi.
  assert (Hc : 0 < PI / 180) by lra. split; nra.
Qed.

(** The ordinate fraction of a latitude within 85 degrees of the equator
    is not negative. *)
Lemma y_fraction_nonneg (lat : R) :
  -85 < lat < 85 ->
  0 <= (1 - ln (tan (math_radians lat) + 1 / cos (math_radians lat)) / PI) / 2.
Proof.
  intros Hlat. pose proof PI_RGT_0 as Hpi.
  destruct (mercator_below_PI _ (radians_within_85 lat Hlat)) as [_ Hhi].
  set (m := ln _) in *.
  assert (Hq : m / PI < 1).
  { apply (Rmult_lt_reg_r PI); [lra|]. unfold Rdiv. rewrite Rmult_assoc, Rinv_l by lra. lra. }
  lra.
Qed.

(** X13. Tiles nest across zoom levels: for a point at or east of
    longitude -180 and within 85 degrees of the equator, the tile at zoom
    [zoom + k] is a descendant of the tile at zoom [zoom]: dividing its
    indices by [2 ^ k] gives the indices of the coarser tile. *)
Theorem lonlat_to_tile_descends (lon lat : R) (zoom k : Z) (x y x' y' : Z) :
  (0 <= k)%Z ->
  -180 <= lon ->
  -85 < lat < 85 ->
  lonlat_to_tile lon lat zoom = Ok (x, y) ->
  lonlat_to_tile lon lat (zoom + k) = Ok (x', y') ->
  (x' / 2 ^ k = x /\ y' / 2 ^ k = y)%Z.
Proof.
  intros Hk Hlon Hlat Hcoarse Hfine.
  destruct (lonlat_to_tile_column _ _ _ _ _ Hcoarse) as [Hzoom _].
  destruct (lonlat_to_tile_column _ _ _ _ _ Hfine) as [Hzoom' _].
  rewrite lonlat_to_tile_between_poles in Hcoarse, Hfine by first [assumption | lra].
  injection Hcoarse as <- <-. injection Hfine as <- <-.
  rewrite (powerRZ_2_add zoom k Hk), <- !Rmult_assoc.
  pose proof (powerRZ_2_pos zoom) as Hn.
  pose proof (y_fraction_nonneg lat Hlat) as Hy.
  assert (Hpow : (0 < 2 ^ k)%Z) by (apply Z.pow_pos_nonneg; lia).
  split; apply int_scale; try exact Hpow.
  - apply Rmult_le_pos; [|lra]. lra.
  - apply Rmult_le_pos; [exact Hy | lra].
Qed.

Lemma lonlat_to_tile_origin_zoom_0 : lonlat_to_tile 0 0 0 = Ok (0, 0)%Z.
Proof.
  rewrite lonlat_to_tile_equator by lia. cbn [powerRZ].
  rewrite (int_unique ((0 + 180) / 360 * 1) 0) by lra.
  rewrite (int_unique (1 / 2 * 1) 0) by lra. reflexivity.
Qed.

Lemma lonlat_to_tile_origin_zoom_1 : lonlat_to_tile 0 0 (0 + 1) = Ok (1, 1)%Z.
Proof.
  rewrite lonlat_to_tile_equator by lia. cbn [Z.add powerRZ].
  change (Pos.to_nat 1) with 1%nat. rewrite pow_1.
  rewrite (int_unique ((0 + 180) / 360 * 2) 1) by lra.
  rewrite (int_unique (1 / 2 * 2) 1) by lra. reflexivity.
Qed.

Lemma lonlat_to_tile_descends_witness : (1 / 2 ^ 1 = 0 /\ 1 / 2 ^ 1 = 0)%Z.
Proof.
  apply (lonlat_to_tile_descends 0 0 0 1 0 0 1 1);
    [lia | lra | lra | exact lonlat_to_tile_origin_zoom_0
     | exact lonlat_to_tile_origin_zoom_1].
Defined.

(** The columns of a tile range are those of the two longitudes of the
    extent, whatever the latitudes. *)
Lemma extent_to_tile_indices_columns (minx maxx miny maxy : R) (zoom : Z)
      (x_min y_min x_max y_max : Z) :
  extent_to_tile_indices (minx, maxx, miny, maxy) zoom = Ok (x_min, y_min, x_max, y_max) ->
  x_min = int ((minx + 180) / 360 * powerRZ 2 zoom)
  /\ x_max = int ((maxx + 180) / 360 * powerRZ 2 zoom).
Proof.
  unfold extent_to_tile_indices.
  destruct (lonlat_to_tile minx miny zoom) as [[a b]|e] eqn:Hsw; cbn [bind]; [|discriminate].
  destruct (lonlat_to_tile maxx maxy zoom) as [[c d]|e] eqn:Hne; cbn [bind]; [|discriminate].
  intros [= <- <- <- <-].
  split; [exact (proj2 (lonlat_to_tile_column _ _ _ _ _ Hsw))
         | exact (proj2 (lonlat_to_tile_column _ _ _ _ _ Hne))].
Qed.

(** X15. The columns of a tile range are ordered and grow with the extent:
    when an extent with [minLon <= maxLon] lies between the longitudes of
    another, its columns at the same zoom satisfy [x_min <= x_max] and lie
    between the columns of the other, whatever the latitudes of the two
    extents. *)
Theorem extent_to_tile_indices_monotone
        (minx maxx miny maxy minx' maxx' miny' maxy' : R) (zoom : Z)
        (x_min y_min x_max y_max x_min' y_min' x_max' y_max' : Z) :
  minx' <= minx -> minx <= maxx -> maxx <= maxx' ->
  extent_to_tile_indices (minx, maxx, miny, maxy) zoom = Ok (x_min, y_min, x_max, y_max) ->
  extent_to_tile_indices (minx', maxx', miny', maxy') zoom
  = Ok (x_min', y_min', x_max', y_max') ->
  (x_min' <= x_min /\ x_min <= x_max /\ x_max <= x_max')%Z.
Proof.
  intros Hwest Hx Heast Hin Hout.
  destruct (extent_to_tile_indices_columns _ _ _ _ _ _ _ _ _ Hin) as [-> ->].
  destruct (extent_to_tile_indices_columns _ _ _ _ _ _ _ _ _ Hout) as [-> ->].
  repeat split; now apply x_tile_monotone.
Qed.

Lemma extent_m90_1_0_45_zoom_1 :
  extent_to_tile_indices (-90, 1, 0, 45) 1 = Ok (0, 0, 1, 1)%Z.
Proof.
  pose proof ln_1_plus_sqrt2 as [Hl0 Hl1]. pose proof PI_RGT_0 as Hpi.
  assert (Hq : 0 < ln (1 + sqrt 2) / PI < 1).
  { assert (ln (1 + sqrt 2) = ln (1 + sqrt 2) / PI * PI) by (field; lra). nra. }
  unfold extent_to_tile_indices.
  rewrite lonlat_to_tile_equator, lonlat_to_tile_45 by lia. cbn [bind powerRZ].
  change (Pos.to_nat 1) with 1%nat. rewrite pow_1.
  rewrite (int_unique ((-90 + 180) / 360 * 2) 0) by lra.
  rewrite (int_unique (1 / 2 * 2) 1) by lra.
  rewrite (int_unique ((1 + 180) / 360 * 2) 1) by lra.
  rewrite (int_unique ((1 - ln (1 + sqrt 2) / PI) / 2 * 2) 0) by lra.
  reflexivity.
Qed.

Lemma extent_to_tile_indices_monotone_witness :
  (0 <= 1 /\ 1 <= 1 /\ 1 <= 1)%Z.
Proof.
  apply (extent_to_tile_indices_monotone 0 1 0 45 (-90) 1 0 45 1 1 0 1 1 0 0 1 1);
    [lra | lra | lra | exact extent_0_1_0_45_zoom_1 | exact extent_m90_1_0_45_zoom_1].
Defined.

(** The extent [[0, -90, 0, 0]], whose east edge is west of its west edge. *)
Lemma extent_0_m90_equator_zoom_1 :
  extent_to_tile_indices (0, -90, 0, 0) 1 = Ok (1, 1, 0, 1)%Z.
Proof.
  unfold extent_to_tile_indices. rewrite !lonlat_to_tile_equator by lia. cbn [bind powerRZ].
  change (Pos.to_nat 1) with 1%nat. rewrite pow_1.
  rewrite (int_unique ((0 + 180) / 360 * 2) 1) by lra.
  rewrite (int_unique (1 / 2 * 2) 1) by lra.
  rewrite (int_unique ((-90 + 180) / 360 * 2) 0) by lra.
  reflexivity.
Qed.

End TileGrid.

(** ** An extent with an empty tile range *)

Lemma collect_empty_rows {A B : Type} (f : A -> Z -> result B) (ys : list A) :
  collect (fun y => collect (f y) []) ys = Ok (map (fun _ => []) ys).
Proof. apply collect_map. reflexivity. Qed.

(** X17. When the tile range of the extent is empty (the east edge falls
    in a column west of the west edge, or the south edge in a row north of
    the north edge) and no supersampling is in effect,
    [fetch_tiles_for_extent] requests no tile: whatever the network, it
    returns one fully transparent square of the provider's tile size
    (smoothed as any composite when [resample] is set). *)
Theorem fetch_tiles_for_extent_empty_range
        (net : Network) (self : Server) (extent : Extent)
        (zoom_level supersample : Z) (resample : bool) (resample_method : string)
        (fetch_zoom s' : Z) (notices : list warning) (x_min y_min x_max y_max : Z) :
  _validate_zoom_level self zoom_level supersample = Ok ((fetch_zoom, s'), notices) ->
  s' <= 0 ->
  extent_to_tile_indices extent fetch_zoom = Ok (x_min, y_min, x_max, y_max) ->
  x_max < x_min \/ y_max < y_min ->
  0 <= tile_size (_config self) ->
  let edge := tile_size (_config self) in
  let blank := mkImage edge edge (BandsRGBA (repeat (0, 0, 0, 0) (Z.to_nat (edge * edge)))) in
  fetch_tiles_for_extent net self extent zoom_level supersample resample resample_method
  = Ok (if resample && (s' =? 0)
        then Resized (Resized (Raster blank) (scaled_102 edge, scaled_102 edge) BICUBIC)
                     (edge, edge) (_get_resample_filter resample_method)
        else Raster blank,
        notices).
Proof.
  intros Hval Hs Hidx Hempty Hedge edge blank.
  rewrite (fetch_tiles_for_extent_unsupersampled net self extent zoom_level supersample
             resample resample_method fetch_zoom s' notices Hval Hs).
  rewrite Hidx. cbn [bind].
  assert (Htiles : exists tiles,
             collect (fun y => collect (fun x => fetch_tile net self fetch_zoom x y)
                                       (range x_min (x_max + 1)))
                     (range y_min (y_max + 1)) = Ok tiles
             /\ (Z.of_nat (List.length tiles) = 0
                 \/ Z.of_nat (List.length (nth 0 tiles [])) = 0)
             /\ match tiles with
                | (tile :: _) :: _ => width tile
                | _ => tile_size (_config self)
                end = edge).
  { destruct (Z.lt_ge_cases y_max y_min) as [Hy|Hy].
    - exists []. rewrite (range_empty y_min (y_max + 1)) by lia.
      split; [reflexivity|]. split; [now left | reflexivity].
    - assert (Hx : x_max < x_min) by lia.
      rewrite (range_empty x_min (x_max + 1)) by lia.
      rewrite (collect_empty_rows (fun y x => fetch_tile net self fetch_zoom x y)).
      eexists. split; [reflexivity|].
      destruct (range y_min (y_max + 1)) as [|y ys]; cbn [map nth List.length];
        split; try (now right); reflexivity. }
  destruct Htiles as (tiles & Hcollect & Hdeg & Hsize).
  rewrite Hcollect. cbn [bind]. rewrite Hsize.
  rewrite (combine_tiles_degenerate tiles edge Hedge Hdeg). cbn [bind].
  destruct (resample && (s' =? 0)); [|reflexivity].
  rewrite smoothed_returns by (cbn [width height]; lia). reflexivity.
Qed.

Lemma fetch_tiles_for_extent_empty_range_witness :
  fetch_tiles_for_extent offline esri_terrain (0, -90, 0, 0)%R 1 0 false "lanczos"
  = Ok (Raster (mkImage 256 256 (BandsRGBA (repeat (0, 0, 0, 0) (Z.to_nat (256 * 256))))),
        []).
Proof.
  apply (fetch_tiles_for_extent_empty_range offline esri_terrain (0, -90, 0, 0)%R 1 0
           false "lanczos" 1 0 [] 1 1 0 1);
    [reflexivity | lia | exact extent_0_m90_equator_zoom_1 | left; lia | cbn; lia].
Defined.

(** ** The URL of a tile of the cartopy source *)

(** X18. The URL that the cartopy source gives for a tile [(x, y, z)] at
    or below the provider's maximum zoom is the URL of the tile itself
    without supersampling, and with supersampling the URL of the top-left
    descendant at the fetch zoom, the supersample being cut at the maximum
    zoom.  Above the maximum zoom only the zoom is replaced by the maximum:
    the URL is that of tile [(x, y)] at the maximum zoom. *)
Theorem image_url_addresses (self : Server) (supersample : Z) (resample_method : string)
        (x y z : Z) :
  let source := get_cartopy_source self supersample resample_method in
  let levels := Z.min (Z.max 0 supersample) (zoom_ceiling self - z) in
  (z <= zoom_ceiling self ->
   _image_url source (x, y, z)
   = _build_tile_url self (z + levels) (x * 2 ^ levels) (y * 2 ^ levels))
  /\ (zoom_ceiling self < z ->
      _image_url source (x, y, z) = _build_tile_url self (zoom_ceiling self) x y).
Proof.
  cbv zeta. unfold _image_url, _build_tile_url, get_url_template, get_cartopy_source,
    zoom_ceiling.
  cbn [supersample_level parent_instance].
  set (ceiling := get (max_zoom (_config self)) 18).
  split; intros Hz.
  - destruct (Z.gtb_spec supersample 0) as [Hs|Hs].
    + destruct (Z.gtb_spec (z + supersample) ceiling) as [Hc|Hc].
      * replace (Z.min (Z.max 0 supersample) (ceiling - z)) with (ceiling - z) by lia.
        replace (Z.max 0 (ceiling - z)) with (ceiling - z) by lia.
        replace (z + (ceiling - z)) with ceiling by lia. reflexivity.
      * replace (Z.min (Z.max 0 supersample) (ceiling - z)) with supersample by lia.
        replace (Z.max 0 (z + supersample - z)) with supersample by lia. reflexivity.
    + destruct (Z.gtb_spec z ceiling) as [Hc|Hc]; [lia|].
      replace (Z.min (Z.max 0 supersample) (ceiling - z)) with 0 by lia.
      replace (Z.max 0 (z - z)) with 0 by lia. rewrite Z.add_0_r. reflexivity.
  - assert (Hclamped :
              (if (if supersample >? 0 then z + supersample else z) >? ceiling
               then ceiling
               else if supersample >? 0 then z + supersample else z) = ceiling).
    { destruct (Z.gtb_spec supersample 0);
        [destruct (Z.gtb_spec (z + supersample) ceiling)
        | destruct (Z.gtb_spec z ceiling)]; lia. }
    rewrite Hclamped.
    replace (Z.max 0 (ceiling - z)) with 0 by lia.
    change (2 ^ 0) with 1. now rewrite !Z.mul_1_r.
Qed.

Lemma image_url_addresses_witness :
  _image_url (get_cartopy_source esri_terrain 1 "lanczos") (3, 5, 14)
  = _build_tile_url esri_terrain (zoom_ceiling esri_terrain) 3 5.
Proof.
  apply (proj2 (image_url_addresses esri_terrain 1 "lanczos" 3 5 14)). cbn. lia.
Defined.

(** ** Zoom suggestion *)

Lemma adjustments_get_bounds (key : string) :
  -1 <= adjustments_get quality_adjustments key 0 <= 2.
Proof.
  unfold quality_adjustments. cbn [adjustments_get].
  repeat match goal with
         | |- context [if String.eqb ?k key then _ else _] => destruct (String.eqb k key)
         end; lia.
Qed.

Lemma suggest_optimal_zoom_clamped (self : Server) (base_zoom : Z) (quality_preference : string) :
  zoom_floor self <= zoom_ceiling self ->
  zoom_floor self <= suggest_optimal_zoom self base_zoom quality_preference
  <= zoom_ceiling self.
Proof. unfold suggest_optimal_zoom, zoom_floor, zoom_ceiling. cbv zeta. lia. Qed.

(** X19. For a provider whose minimum zoom is not above its maximum, the
    zoom that [suggest_optimal_zoom] returns is within the provider's zoom
    range, whatever the base zoom and the preference, so
    [_validate_zoom_level] accepts it without a warning. *)
Theorem suggest_optimal_zoom_accepted (self : Server) (base_zoom : Z)
        (quality_preference : string) :
  zoom_floor self <= zoom_ceiling self ->
  let zoom := suggest_optimal_zoom self base_zoom quality_preference in
  zoom_floor self <= zoom <= zoom_ceiling self
  /\ _validate_zoom_level self zoom 0 = Ok ((zoom, 0), []).
Proof.
  intros Hrange zoom.
  pose proof (suggest_optimal_zoom_clamped self base_zoom quality_preference Hrange) as Hz.
  fold zoom in Hz. split; [exact Hz|].
  rewrite (validate_in_range self zoom 0 Hz), Z.add_0_r.
  destruct (Z.gtb_spec zoom (zoom_ceiling self)); [lia | reflexivity].
Qed.

Lemma suggest_optimal_zoom_accepted_witness :
  zoom_floor esri_terrain <= suggest_optimal_zoom esri_terrain 40 "quality"
  <= zoom_ceiling esri_terrain
  /\ _validate_zoom_level esri_terrain (suggest_optimal_zoom esri_terrain 40 "quality") 0
     = Ok ((suggest_optimal_zoom esri_terrain 40 "quality", 0), []).
Proof.
  apply (suggest_optimal_zoom_accepted esri_terrain 40 "quality"). cbn. lia.
Defined.

Lemma lower_idempotent (s : string) : lower (lower s) = lower s.
Proof.
  induction s as [|c s IH]; [reflexivity|]. cbn [lower]. rewrite IH. f_equal.
  unfold lower_char at 1.
  destruct ((65 <=? nat_of_ascii (lower_char c))%nat
            && (nat_of_ascii (lower_char c) <=? 90)%nat) eqn:E; [|reflexivity].
  exfalso. apply andb_true_iff in E. destruct E as [E1 E2].
  apply Nat.leb_le in E1, E2. revert E1 E2. unfold lower_char.
  destruct ((65 <=? nat_of_ascii c)%nat && (nat_of_ascii c <=? 90)%nat) eqn:F.
  - apply andb_true_iff in F. destruct F as [F1 F2]. apply Nat.leb_le in F1, F2.
    rewrite nat_ascii_embedding by lia. lia.
  - intros E1 E2. apply andb_false_iff in F.
    destruct F as [F|F]; apply Nat.leb_gt in F; lia.
Qed.

(** X20. The suggestion grows with the base zoom and with the preference:
    whatever the preference string, the suggestion lies between those for
    ['fast'] and ['quality']; a string that is none of the three names in
    any case counts as ['balanced']; and the case of the letters does not
    matter. *)
Theorem suggest_optimal_zoom_preferences (self : Server) (base_zoom base_zoom' : Z)
        (quality_preference : string) :
  suggest_optimal_zoom self base_zoom "fast"
  <= suggest_optimal_zoom self base_zoom quality_preference
  <= suggest_optimal_zoom self base_zoom "quality"
  /\ suggest_optimal_zoom self base_zoom (lower quality_preference)
     = suggest_optimal_zoom self base_zoom quality_preference
  /\ (lower quality_preference <> "fast" -> lower quality_preference <> "quality" ->
      suggest_optimal_zoom self base_zoom quality_preference
      = suggest_optimal_zoom self base_zoom "balanced")
  /\ (base_zoom <= base_zoom' ->
      suggest_optimal_zoom self base_zoom quality_preference
      <= suggest_optimal_zoom self base_zoom' quality_preference).
Proof.
  unfold suggest_optimal_zoom. cbv zeta. rewrite lower_idempotent.
  pose proof (adjustments_get_bounds (lower quality_preference)) as Hb.
  change (adjustments_get quality_adjustments (lower "fast") 0) with (-1).
  change (adjustments_get quality_adjustments (lower "quality") 0) with 2.
  change (adjustments_get quality_adjustments (lower "balanced") 0) with 0.
  split; [destruct (tile_size (_config self) >=? 512); lia|].
  split; [reflexivity|].
  split; [|intros Hle; destruct (tile_size (_config self) >=? 512); lia].
  intros Hfast Hquality.
  assert (Hadj : adjustments_get quality_adjustments (lower quality_preference) 0 = 0).
  { unfold quality_adjustments. cbn [adjustments_get].
    destruct (String.eqb_spec "fast" (lower quality_preference)); [congruence|].
    destruct (String.eqb_spec "balanced" (lower quality_preference)); [reflexivity|].
    destruct (String.eqb_spec "quality" (lower quality_preference)); [congruence|].
    reflexivity. }
  now rewrite Hadj.
Qed.

Lemma suggest_optimal_zoom_preferences_witness :
  suggest_optimal_zoom esri_terrain 5 "Best" = suggest_optimal_zoom esri_terrain 5 "balanced".
Proof.
  apply (proj1 (proj2 (proj2
           (suggest_optimal_zoom_preferences esri_terrain 5 5 "Best"))));
    cbn; discriminate.
Defined.
